(** * useQuery: snapshot synchronisation and lifecycle reconciliation

    A shallow embedding of [src/react/hooks/useQuery.ts].  The hook is split
    the way the source is: [createWatchQueryOptions] (the parameter
    normaliser), the [useState] initialiser (handle adoption or creation and
    the server-rendering registration with its [fetchData] waiter),
    [getSnapshot] of the [useMemo] pair (the memoiser), and the [useEffect]
    body (the reconciler that runs on every update cycle). *)

From Stdlib Require Import List String ZArith Bool Lia.
Import ListNotations.
Local Open Scope string_scope.
Local Open Scope list_scope.

(* ================================================================== *)
(** ** Plain data and deep equality                                     *)
(* ================================================================== *)

(** Query documents, variables and result data are plain JSON-like trees.
    Objects are kept with their keys in one canonical order, so that the
    key-order-insensitive comparison of [@wry/equality] is the structural
    comparison below. *)
#[local] Unset Elimination Schemes.
Inductive Json : Type :=
| JNull
| JBool (b : bool)
| JNum (z : Z)
| JStr (s : string)
| JArr (items : list Json)
| JObj (fields : list (string * Json)).
#[local] Set Elimination Schemes.

(** [equal] of [@wry/equality] on plain data: deep structural equality. *)
Fixpoint equal (a b : Json) {struct a} : bool :=
  match a, b with
  | JNull, JNull => true
  | JBool x, JBool y => Bool.eqb x y
  | JNum x, JNum y => Z.eqb x y
  | JStr x, JStr y => String.eqb x y
  | JArr xs, JArr ys =>
      (fix items (xs ys : list Json) {struct xs} : bool :=
         match xs, ys with
         | [], [] => true
         | x :: xs', y :: ys' => equal x y && items xs' ys'
         | _, _ => false
         end) xs ys
  | JObj xs, JObj ys =>
      (fix fields (xs ys : list (string * Json)) {struct xs} : bool :=
         match xs, ys with
         | [], [] => true
         | (k, x) :: xs', (k', y) :: ys' =>
             String.eqb k k' && equal x y && fields xs' ys'
         | _, _ => false
         end) xs ys
  | _, _ => false
  end.

(** [equal] on a value that may be [undefined]. *)
Definition equal_opt (a b : option Json) : bool :=
  match a, b with
  | None, None => true
  | Some x, Some y => equal x y
  | _, _ => false
  end.

(** Strict equality [===] on an optional primitive. *)
Definition opt_eqb {A : Type} (eqb : A -> A -> bool) (a b : option A) : bool :=
  match a, b with
  | None, None => true
  | Some x, Some y => eqb x y
  | _, _ => false
  end.

(* ================================================================== *)
(** ** Options and configurations                                       *)
(* ================================================================== *)

Inductive FetchPolicy : Type :=
| cache_first
| network_only
| cache_only
| no_cache
| standby
| cache_and_network.

Definition FetchPolicy_eqb (p q : FetchPolicy) : bool :=
  match p, q with
  | cache_first, cache_first
  | network_only, network_only
  | cache_only, cache_only
  | no_cache, no_cache
  | standby, standby
  | cache_and_network, cache_and_network => true
  | _, _ => false
  end.

(** The [context] option forwarded to the engine.  [renderPromises] is an
    object reference when present; the other entries are plain data. *)
Record DefaultContext : Type := {
  ctx_renderPromises : option nat;
  ctx_entries : Json
}.

Definition equal_context (a b : DefaultContext) : bool :=
  opt_eqb Nat.eqb (ctx_renderPromises a) (ctx_renderPromises b)
  && equal (ctx_entries a) (ctx_entries b).

(** [QueryHookOptions].  The first five fields are the hook-specific ones
    that [createWatchQueryOptions] removes; callbacks are closures, known by
    their identity.  [forwarded] stands for every further engine option
    (polling interval, error policy, ...), which the hook never inspects. *)
Record QueryHookOptions : Type := {
  skip : option bool;
  ssr : option bool;
  onCompleted : option nat;
  onError : option nat;
  displayName : option string;
  fetchPolicy : option FetchPolicy;
  context : option DefaultContext;
  variables : option Json;
  forwarded : list (string * Json)
}.

(** The default [options = {}]. *)
Definition no_options : QueryHookOptions :=
  {| skip := None; ssr := None; onCompleted := None; onError := None;
     displayName := None; fetchPolicy := None; context := None;
     variables := None; forwarded := [] |}.

Definition DocumentNode : Type := Json.

Record WatchQueryOptions : Type := {
  wq_query : DocumentNode;
  wq_fetchPolicy : option FetchPolicy;
  wq_context : option DefaultContext;
  wq_variables : option Json;
  wq_forwarded : list (string * Json)
}.

(** [equal] on two configurations: every field, deeply. *)
Definition equal_options (a b : WatchQueryOptions) : bool :=
  equal (wq_query a) (wq_query b)
  && opt_eqb FetchPolicy_eqb (wq_fetchPolicy a) (wq_fetchPolicy b)
  && opt_eqb equal_context (wq_context a) (wq_context b)
  && equal_opt (wq_variables a) (wq_variables b)
  && equal (JObj (wq_forwarded a)) (JObj (wq_forwarded b)).

(** JavaScript truthiness of an optional boolean and of an optional
    reference. *)
Definition truthy (b : option bool) : bool :=
  match b with Some true => true | _ => false end.

Definition present {A : Type} (r : option A) : bool :=
  match r with Some _ => true | None => false end.

(** [watchQueryOptions.context?.renderPromises] *)
Definition context_renderPromises (c : option DefaultContext) : bool :=
  match c with
  | Some c => present (ctx_renderPromises c)
  | None => false
  end.

(** The fetch policy chosen by the three-way conditional of
    [createWatchQueryOptions]. *)
Definition normalized_fetchPolicy (o : QueryHookOptions) : option FetchPolicy :=
  if truthy (skip o) then Some standby
  else if context_renderPromises (context o)
          && (opt_eqb FetchPolicy_eqb (fetchPolicy o) (Some network_only)
              || opt_eqb FetchPolicy_eqb (fetchPolicy o) (Some cache_and_network))
       then Some cache_first
  else if negb (present (fetchPolicy o)) then Some cache_first
  else fetchPolicy o.

Definition createWatchQueryOptions
    (query : DocumentNode) (options : option QueryHookOptions)
    : WatchQueryOptions :=
  let o := match options with Some o => o | None => no_options end in
  {| wq_query := query;
     wq_fetchPolicy := normalized_fetchPolicy o;
     wq_context := context o;
     wq_variables := variables o;
     wq_forwarded := forwarded o |}.

(* ================================================================== *)
(** ** Results, handles and the execution engine                        *)
(* ================================================================== *)

Record ApolloError : Type := { message : string }.

(** [ApolloQueryResult].  A result is a JavaScript object and is handed to
    the rendering runtime by reference: [object_id] is that identity, so two
    results are the identical reference exactly when they are equal here. *)
Record ApolloQueryResult : Type := {
  object_id : nat;
  data : option Json;
  loading : bool;
  networkStatus : Z;
  error : option ApolloError
}.

(** An [ObservableQuery] is known to the hook by its identity only. *)
Record ObservableQuery : Type := { obs_id : nat }.

Definition ObservableQuery_eqb (a b : ObservableQuery) : bool :=
  Nat.eqb (obs_id a) (obs_id b).

(** An [ApolloClient] is compared by reference ([!==]). *)
Definition ApolloClient : Type := nat.

Inductive Promise (A : Type) : Type :=
| Fulfilled (value : A)
| Rejected (reason : ApolloError).
Arguments Fulfilled {A} value.
Arguments Rejected {A} reason.

(** [promise.catch(onRejected)] *)
Definition catch {A B : Type} (p : Promise A) (onRejected : ApolloError -> B)
    : Promise (A + B) :=
  match p with
  | Fulfilled v => Fulfilled (inl v)
  | Rejected e => Fulfilled (inr (onRejected e))
  end.

(** What the engine answers at one moment: the current result of each
    handle, and how the promise returned by [setOptions] settles.  A
    reconfiguration that fails does so by rejecting that promise. *)
Record Engine : Type := {
  getCurrentResult : ObservableQuery -> ApolloQueryResult;
  setOptions_settles :
    ObservableQuery -> WatchQueryOptions -> Promise ApolloQueryResult
}.

Inductive EngineCall : Type :=
| WatchQuery (client : ApolloClient) (options : WatchQueryOptions)
             (created : ObservableQuery)
| SetOptions (target : ObservableQuery) (options : WatchQueryOptions).

(** The entry registered by [addQueryPromise]: the value of its
    [getOptions] thunk and the handle its [fetchData] subscribes to. *)
Record QueryPromise : Type := {
  getOptions : WatchQueryOptions;
  fetchData_on : ObservableQuery
}.

(** Modelled from the spec: the pre-render coordinator [RenderPromises]
    (its class is not part of the hook's file).  It holds the handles
    registered per configuration, [lookupExistingHandle] finds the handle
    registered for a matching configuration, and a pending hydration is
    kept until the coordinator awaits it. *)
Record RenderPromises : Type := {
  ssrObservables : list (WatchQueryOptions * ObservableQuery);
  queryPromises : list QueryPromise
}.

Definition lookupExistingHandle (rp : RenderPromises) (o : WatchQueryOptions)
    : option ObservableQuery :=
  match find (fun e => equal_options (fst e) o) (ssrObservables rp) with
  | Some e => Some (snd e)
  | None => None
  end.

(** Everything outside the hook that its calls change: the handles created
    so far, the calls made to the engine, the coordinator of the React
    context (absent outside a server-rendering pass), and the rejections of
    promises that were dropped with no handler attached. *)
Record World : Type := {
  created_handles : nat;
  calls : list EngineCall;
  renderPromises : option RenderPromises;
  unhandled : list ApolloError
}.

(** *** A state monad over the world *)

Definition M (A : Type) : Type := World -> A * World.

Definition ret {A : Type} (a : A) : M A := fun w => (a, w).

Definition bind {A B : Type} (m : M A) (k : A -> M B) : M B :=
  fun w => let (a, w') := m w in k a w'.

Notation "x <- m ;; k" := (bind m (fun x => k))
  (at level 61, m at next level, right associativity).
Notation "m ;;; k" := (bind m (fun _ => k))
  (at level 61, right associativity).

(** [client.watchQuery(options)]: a new handle, distinct from all others. *)
Definition watchQuery (client : ApolloClient) (options : WatchQueryOptions)
    : M ObservableQuery :=
  fun w =>
    let o := {| obs_id := created_handles w |} in
    (o, {| created_handles := S (created_handles w);
           calls := calls w ++ [WatchQuery client options o];
           renderPromises := renderPromises w;
           unhandled := unhandled w |}).

(** [obsQuery.setOptions(options)]: returns a promise. *)
Definition setOptions (E : Engine) (o : ObservableQuery)
    (options : WatchQueryOptions) : M (Promise ApolloQueryResult) :=
  fun w =>
    (setOptions_settles E o options,
     {| created_handles := created_handles w;
        calls := calls w ++ [SetOptions o options];
        renderPromises := renderPromises w;
        unhandled := unhandled w |}).

(** An expression statement whose value is a promise: nothing awaits it,
    so a rejection of it is reported as unhandled. *)
Definition drop {A : Type} (p : Promise A) : M unit :=
  fun w =>
    match p with
    | Fulfilled _ => (tt, w)
    | Rejected e =>
        (tt, {| created_handles := created_handles w;
                calls := calls w;
                renderPromises := renderPromises w;
                unhandled := unhandled w ++ [e] |})
    end.

(** [context.renderPromises] as a condition. *)
Definition has_renderPromises : M bool :=
  fun w => (present (renderPromises w), w).

Definition with_renderPromises (f : RenderPromises -> RenderPromises) : M unit :=
  fun w =>
    (tt, {| created_handles := created_handles w;
            calls := calls w;
            renderPromises := option_map f (renderPromises w);
            unhandled := unhandled w |}).

(** [context.renderPromises.getSSRObservable(options)] *)
Definition getSSRObservable (options : WatchQueryOptions)
    : M (option ObservableQuery) :=
  fun w =>
    (match renderPromises w with
     | Some rp => lookupExistingHandle rp options
     | None => None
     end, w).

Definition registerSSRObservable (o : ObservableQuery)
    (options : WatchQueryOptions) : M unit :=
  with_renderPromises (fun rp =>
    {| ssrObservables := ssrObservables rp ++ [(options, o)];
       queryPromises := queryPromises rp |}).

Definition addQueryPromise (q : QueryPromise) : M unit :=
  with_renderPromises (fun rp =>
    {| ssrObservables := ssrObservables rp;
       queryPromises := queryPromises rp ++ [q] |}).

(* ================================================================== *)
(** ** The hook                                                         *)
(* ================================================================== *)

(** The object held by [useRef]. *)
Record Ref : Type := {
  ref_client : ApolloClient;
  ref_query : DocumentNode;
  ref_options : option QueryHookOptions;
  ref_watchQueryOptions : WatchQueryOptions
}.

(** One instance of the hook: the [useRef] cell and the [useState] value. *)
Record Hook : Type := {
  ref : Ref;
  obsQuery : ObservableQuery
}.

(** [options?.ssr] and [options?.skip] *)
Definition options_ssr (options : option QueryHookOptions) : option bool :=
  match options with Some o => ssr o | None => None end.

Definition options_skip (options : option QueryHookOptions) : option bool :=
  match options with Some o => skip o | None => None end.

(** [x !== false] *)
Definition is_not_false (b : option bool) : bool :=
  match b with Some false => false | _ => true end.

(** The initial value given to [useRef]. *)
Definition useRef_initial (client : ApolloClient) (query : DocumentNode)
    (options : option QueryHookOptions) : Ref :=
  {| ref_client := client;
     ref_query := query;
     ref_options := options;
     ref_watchQueryOptions := createWatchQueryOptions query options |}.

(** The initialiser passed to [useState].  [coordinated] is the condition
    [context.renderPromises], which the initialiser tests three times. *)
Definition useState_initializer (E : Engine) (client : ApolloClient)
    (query : DocumentNode) (options : option QueryHookOptions)
    : M ObservableQuery :=
  let watchQueryOptions := createWatchQueryOptions query options in
  coordinated <- has_renderPromises ;;
  existing <-
    (if coordinated then getSSRObservable watchQueryOptions else ret None) ;;
  obsQuery <-
    match existing with
    | Some o => ret o
    | None =>
        o <- watchQuery client watchQueryOptions ;;
        (if coordinated
         then registerSSRObservable o watchQueryOptions
         else ret tt) ;;;
        ret o
    end ;;
  if coordinated
     && is_not_false (options_ssr options)
     && negb (truthy (options_skip options))
     && loading (getCurrentResult E obsQuery)
  then
    addQueryPromise
      {| getOptions := createWatchQueryOptions query options;
         fetchData_on := obsQuery |} ;;;
    ret obsQuery
  else ret obsQuery.

(** The first render. *)
Definition mount (E : Engine) (client : ApolloClient) (query : DocumentNode)
    (options : option QueryHookOptions) : M Hook :=
  obsQuery <- useState_initializer E client query options ;;
  ret {| ref := useRef_initial client query options; obsQuery := obsQuery |}.

(** [Object.assign(ref.current, { client, query, options })] *)
Definition assign (r : Ref) (client : ApolloClient) (query : DocumentNode)
    (options : option QueryHookOptions) : Ref :=
  {| ref_client := client;
     ref_query := query;
     ref_options := options;
     ref_watchQueryOptions := ref_watchQueryOptions r |}.

(** The body of [useEffect]: one update cycle.  [setObsQuery] replaces the
    state value. *)
Definition useEffect_body (E : Engine) (client : ApolloClient)
    (query : DocumentNode) (options : option QueryHookOptions) (h : Hook)
    : M Hook :=
  let watchQueryOptions := createWatchQueryOptions query options in
  obsQuery' <-
    (if negb (Nat.eqb (ref_client (ref h)) client)
        || negb (equal (ref_query (ref h)) query)
     then watchQuery client watchQueryOptions
     else if negb (equal_options (ref_watchQueryOptions (ref h))
                                 watchQueryOptions)
     then
       p <- setOptions E (obsQuery h) watchQueryOptions ;;
       drop (catch p (fun _ => tt)) ;;;
       ret (obsQuery h)
     else ret (obsQuery h)) ;;
  ret {| ref := assign (ref h) client query options; obsQuery := obsQuery' |}.

(** The inputs of one render: the client in use, the query and the
    options. *)
Record Props : Type := {
  p_client : ApolloClient;
  p_query : DocumentNode;
  p_options : option QueryHookOptions
}.

(** A sequence of update cycles; the engine may answer differently in each. *)
Fixpoint update_cycles (cycles : list (Engine * Props)) (h : Hook) : M Hook :=
  match cycles with
  | [] => ret h
  | (E, p) :: rest =>
      h' <- useEffect_body E (p_client p) (p_query p) (p_options p) h ;;
      update_cycles rest h'
  end.

(** The configuration a handle was created or last reconfigured with,
    according to the calls made to the engine. *)
Fixpoint configured_with (log : list EngineCall) (o : ObservableQuery)
    : option WatchQueryOptions :=
  match log with
  | [] => None
  | c :: rest =>
      let here :=
        match c with
        | WatchQuery _ options created =>
            if ObservableQuery_eqb created o then Some options else None
        | SetOptions target options =>
            if ObservableQuery_eqb target o then Some options else None
        end in
      match configured_with rest o with
      | Some later => Some later
      | None => here
      end
  end.

(** Mount followed by a sequence of update cycles. *)
Definition run (E0 : Engine) (p0 : Props) (cycles : list (Engine * Props))
    : M Hook :=
  h <- mount E0 (p_client p0) (p_query p0) (p_options p0) ;;
  update_cycles cycles h.

(** The inputs of the latest cycle so far (those of the mount when there
    has been none). *)
Definition previous (p0 : Props) (cycles : list (Engine * Props)) : Props :=
  last (map snd cycles) p0.

(** The pending hydrations held by the coordinator, if there is one. *)
Definition pending_hydrations (w : World) : list QueryPromise :=
  match renderPromises w with
  | Some rp => queryPromises rp
  | None => []
  end.

(** Every handle the coordinator holds was created by the engine. *)
Definition coordinator_handles_created (w : World) : Prop :=
  match renderPromises w with
  | Some rp =>
      Forall (fun e => obs_id (snd e) < created_handles w) (ssrObservables rp)
  | None => True
  end.

(** The current handle is one the engine has created. *)
Definition handle_created (h : Hook) (w : World) : Prop :=
  obs_id (obsQuery h) < created_handles w.

(** The cell of [useRef] once [inputs] are the latest inputs, on an
    instance whose configuration at mount was [initial]. *)
Definition ref_after (initial : WatchQueryOptions) (inputs : Props) : Ref :=
  {| ref_client := p_client inputs;
     ref_query := p_query inputs;
     ref_options := p_options inputs;
     ref_watchQueryOptions := initial |}.

(* ================================================================== *)
(** ** The memoiser                                                     *)
(* ================================================================== *)

(** The condition under which [getSnapshot] keeps [previousResult]. *)
Definition unchanged (previousResult result : ApolloQueryResult) : bool :=
  Bool.eqb (loading previousResult) (loading result)
  && Z.eqb (networkStatus previousResult) (networkStatus result)
  && equal_opt (data previousResult) (data result).

(** [getSnapshot]: the value returned and the new [previousResult]. *)
Definition getSnapshot (E : Engine) (obsQuery : ObservableQuery)
    (previousResult : option ApolloQueryResult)
    : ApolloQueryResult * option ApolloQueryResult :=
  let result := getCurrentResult E obsQuery in
  let previousResult' :=
    match previousResult with
    | Some p => if unchanged p result then p else result
    | None => result
    end in
  (previousResult', Some previousResult').

(* ================================================================== *)
(** ** The hydration waiter                                             *)
(* ================================================================== *)

Inductive Notification : Type :=
| Next (result : ApolloQueryResult)
| Error (e : ApolloError)
| Complete.

(** Which callback of the observer called [resolve]. *)
Inductive Resolution : Type :=
| by_next
| by_error
| by_complete.

(** The state of one [fetchData] call: whether its subscription still
    delivers, the calls of [resolve] so far, and the number of calls of
    [sub.unsubscribe]. *)
Record Waiter : Type := {
  closed : bool;
  resolved : list Resolution;
  unsubscribe_calls : nat
}.

Definition subscribed : Waiter :=
  {| closed := false; resolved := []; unsubscribe_calls := 0 |}.

(** [resolve()] and [sub.unsubscribe()] *)
Definition resolve (r : Resolution) (s : Waiter) : Waiter :=
  {| closed := closed s;
     resolved := resolved s ++ [r];
     unsubscribe_calls := unsubscribe_calls s |}.

Definition unsubscribe (s : Waiter) : Waiter :=
  {| closed := true;
     resolved := resolved s;
     unsubscribe_calls := S (unsubscribe_calls s) |}.

(** The observer passed to [obsQuery.subscribe] by [fetchData]. *)
Definition observer (n : Notification) (s : Waiter) : Waiter :=
  match n with
  | Next result =>
      if negb (loading result) then unsubscribe (resolve by_next s) else s
  | Error _ => unsubscribe (resolve by_error s)
  | Complete => resolve by_complete s
  end.

(** Modelled from the spec: the subscription of a handle.  Notifications
    reach the observer in the order the engine emits them, after
    [subscribe] has returned; an error or a completion ends the stream, and
    nothing is delivered once the subscription is closed. *)
Definition ends_stream (n : Notification) : bool :=
  match n with Next _ => false | Error _ | Complete => true end.

Definition deliver (s : Waiter) (n : Notification) : Waiter :=
  if closed s then s
  else
    let s' := observer n s in
    {| closed := closed s' || ends_stream n;
       resolved := resolved s';
       unsubscribe_calls := unsubscribe_calls s' |}.

(** [fetchData] run against what the engine emits on the handle. *)
Definition fetchData (emitted : list Notification) : Waiter :=
  fold_left deliver emitted subscribed.

(** The notifications that call [resolve], and the callback that does. *)
Definition resolves (n : Notification) : option Resolution :=
  match n with
  | Next result => if loading result then None else Some by_next
  | Error _ => Some by_error
  | Complete => Some by_complete
  end.

(* ================================================================== *)
(** ** The store listener                                               *)
(* ================================================================== *)

(** The state of one call of [subscribe]: whether the subscription it
    opened still delivers, the calls of [handleStoreChange] so far, and the
    calls of [subscription.unsubscribe] made by the returned disposer. *)
Record Listener : Type := {
  listening : bool;
  store_changes : nat;
  disposer_calls : nat
}.

Definition attached : Listener :=
  {| listening := true; store_changes := 0; disposer_calls := 0 |}.

Definition handleStoreChange (l : Listener) : Listener :=
  {| listening := listening l;
     store_changes := S (store_changes l);
     disposer_calls := disposer_calls l |}.

(** The observer made by [obsQuery.subscribe(handleStoreChange,
    handleStoreChange)]: the same callback for results and for errors, and
    none for completion. *)
Definition store_observer (n : Notification) (l : Listener) : Listener :=
  match n with
  | Next _ => handleStoreChange l
  | Error _ => handleStoreChange l
  | Complete => l
  end.

(** The function returned by [subscribe]. *)
Definition disposer (l : Listener) : Listener :=
  {| listening := false;
     store_changes := store_changes l;
     disposer_calls := S (disposer_calls l) |}.

(** What happens to a listener over time: the engine emits a notification
    on the handle, or the rendering runtime runs the disposer. *)
Inductive StoreEvent : Type :=
| Emits (n : Notification)
| Disposes.

(** One event, under the subscription contract of [deliver]. *)
Definition listen (l : Listener) (e : StoreEvent) : Listener :=
  match e with
  | Emits n =>
      if listening l
      then
        let l' := store_observer n l in
        {| listening := listening l' && negb (ends_stream n);
           store_changes := store_changes l';
           disposer_calls := disposer_calls l' |}
      else l
  | Disposes => disposer l
  end.

(** [subscribe(handleStoreChange)] followed by the given events. *)
Definition subscribe (events : list StoreEvent) : Listener :=
  fold_left listen events attached.

(* ================================================================== *)
(** ** A render of the hook                                             *)
(* ================================================================== *)

(** The object returned by [useQuery].  A method of [obsQueryMethods] is
    [obsQuery.method.bind(obsQuery)]: it is known by the handle it is bound
    to.  The last four fields are those spread from [result]. *)
Record QueryResult : Type := {
  refetch : ObservableQuery;
  fetchMore : ObservableQuery;
  updateQuery : ObservableQuery;
  startPolling : ObservableQuery;
  stopPolling : ObservableQuery;
  subscribeToMore : ObservableQuery;
  r_variables : option Json;
  r_client : ApolloClient;
  called : bool;
  r_data : option Json;
  r_loading : bool;
  r_networkStatus : Z;
  r_error : option ApolloError
}.

(** The [return] statement of [useQuery]; [variables_of] stands for the
    getter [obsQuery.variables]. *)
Definition useQuery_result (variables_of : ObservableQuery -> option Json)
    (client : ApolloClient) (obsQuery : ObservableQuery)
    (result : ApolloQueryResult) : QueryResult :=
  {| refetch := obsQuery;
     fetchMore := obsQuery;
     updateQuery := obsQuery;
     startPolling := obsQuery;
     stopPolling := obsQuery;
     subscribeToMore := obsQuery;
     r_variables := variables_of obsQuery;
     r_client := client;
     called := true;
     r_data := data result;
     r_loading := loading result;
     r_networkStatus := networkStatus result;
     r_error := error result |}.

(** What one instance of the hook keeps between renders: the [useRef] cell
    and [useState] value, the dependencies seen by the previous render (the
    handle, for both [useMemo] calls and the effect, and the client, for the
    effect), and [previousResult] of the current [getSnapshot] closure. *)
Record Instance : Type := {
  hook : Hook;
  deps_obsQuery : ObservableQuery;
  deps_client : ApolloClient;
  memo_previousResult : option ApolloQueryResult
}.

(** The first render: the initialisers run, [useMemo] builds a closure with
    no [previousResult], [useSyncExternalStore] reads the snapshot, and the
    effect runs once the render is done. *)
Definition first_render (E : Engine)
    (variables_of : ObservableQuery -> option Json) (p : Props)
    : M (QueryResult * Instance) :=
  h <- mount E (p_client p) (p_query p) (p_options p) ;;
  let snapshot := getSnapshot E (obsQuery h) None in
  h' <- useEffect_body E (p_client p) (p_query p) (p_options p) h ;;
  ret (useQuery_result variables_of (p_client p) (obsQuery h) (fst snapshot),
       {| hook := h';
          deps_obsQuery := obsQuery h;
          deps_client := p_client p;
          memo_previousResult := snd snapshot |}).

(** A later render.  [useMemo] keeps the [getSnapshot] closure, and with
    it [previousResult], while the handle is the one of the previous render,
    and builds a new one otherwise.  The effect runs when one of its
    dependencies changed: the handle, the client, or the query or options
    object ([same_objects] tells whether both are the objects of the
    previous render).  [setObsQuery] shows in the next render. *)
Definition render (E : Engine)
    (variables_of : ObservableQuery -> option Json) (p : Props)
    (same_objects : bool) (i : Instance) : M (QueryResult * Instance) :=
  let obsQuery := obsQuery (hook i) in
  let previousResult :=
    if ObservableQuery_eqb (deps_obsQuery i) obsQuery
    then memo_previousResult i
    else None in
  let snapshot := getSnapshot E obsQuery previousResult in
  h' <-
    (if negb (ObservableQuery_eqb (deps_obsQuery i) obsQuery)
        || negb (Nat.eqb (deps_client i) (p_client p))
        || negb same_objects
     then useEffect_body E (p_client p) (p_query p) (p_options p) (hook i)
     else ret (hook i)) ;;
  ret (useQuery_result variables_of (p_client p) obsQuery (fst snapshot),
       {| hook := h';
          deps_obsQuery := obsQuery;
          deps_client := p_client p;
          memo_previousResult := snd snapshot |}).

(** Consecutive reads of one [getSnapshot] closure, the engine being in the
    given state at each: the objects returned, in order. *)
Fixpoint reads (engines : list Engine) (obsQuery : ObservableQuery)
    (previousResult : option ApolloQueryResult) : list ApolloQueryResult :=
  match engines with
  | [] => []
  | E :: rest =>
      fst (getSnapshot E obsQuery previousResult)
      :: reads rest obsQuery (snd (getSnapshot E obsQuery previousResult))
  end.

(** The inputs of a cycle ask for what the mount asked for: the same
    client, the same query and a deeply equal configuration. *)
Definition same_request (p0 p : Props) : Prop :=
  p_client p = p_client p0
  /\ equal (p_query p0) (p_query p) = true
  /\ equal_options
       (createWatchQueryOptions (p_query p0) (p_options p0))
       (createWatchQueryOptions (p_query p) (p_options p)) = true.

(* ================================================================== *)
(** ** Scenarios                                                        *)
(* ================================================================== *)

Module Scenario.

(** [query Item($id: Int) { item(id: $id) { name } }], abridged. *)
Definition item_query : DocumentNode :=
  JObj [("kind", JStr "Document"); ("name", JStr "Item")].

Definition with_id (id : Z) : option QueryHookOptions :=
  Some {| skip := None; ssr := None; onCompleted := None; onError := None;
          displayName := None; fetchPolicy := None; context := None;
          variables := Some (JObj [("id", JNum id)]); forwarded := [] |}.

Definition props (client : ApolloClient) (id : Z) : Props :=
  {| p_client := client; p_query := item_query; p_options := with_id id |}.

(** A browser: no coordinator, nothing created yet. *)
Definition browser : World :=
  {| created_handles := 0; calls := []; renderPromises := None;
     unhandled := [] |}.

(** A server-rendering pass that has registered nothing yet. *)
Definition server : World :=
  {| created_handles := 0; calls := [];
     renderPromises := Some {| ssrObservables := []; queryPromises := [] |};
     unhandled := [] |}.

Definition result (id : nat) (d : option Json) (l : bool) (ns : Z)
    (e : option ApolloError) : ApolloQueryResult :=
  {| object_id := id; data := d; loading := l; networkStatus := ns;
     error := e |}.

(** An engine on which every handle is loading and [setOptions] is
    rejected. *)
Definition failing : Engine :=
  {| getCurrentResult := fun _ => result 0 None true 1 None;
     setOptions_settles := fun _ _ => Rejected {| message := "Network error" |} |}.

(** An engine that answers every read with the given result. *)
Definition answering (r : ApolloQueryResult) : Engine :=
  {| getCurrentResult := fun _ => r;
     setOptions_settles := fun _ _ => Fulfilled r |}.

Definition first_failure : ApolloQueryResult :=
  result 1 None false 8 (Some {| message := "500" |}).

Definition second_failure : ApolloQueryResult :=
  result 2 None false 8 (Some {| message := "403" |}).

Definition item (id : nat) : ApolloQueryResult :=
  result id (Some (JObj [("item", JObj [("name", JStr "a")])])) false 7 None.

(** Mount with [id = 1], then renders with [id = 2] and [id = 1] again. *)
Definition back_to_first : M (Hook * World * Hook) :=
  h0 <- mount failing 7 item_query (with_id 1) ;;
  h1 <- useEffect_body failing 7 item_query (with_id 2) h0 ;;
  fun w1 =>
    let (h2, w2) := useEffect_body failing 7 item_query (with_id 1) h1 w1 in
    ((h1, w1, h2), w2).

(** The same mount and update to [id = 2], then a render with [id = 2]
    once more (a new options object, deeply equal to the previous one). *)
Definition same_again : M (Hook * World * Hook) :=
  h0 <- mount failing 7 item_query (with_id 1) ;;
  h1 <- useEffect_body failing 7 item_query (with_id 2) h0 ;;
  fun w1 =>
    let (h2, w2) := useEffect_body failing 7 item_query (with_id 2) h1 w1 in
    ((h1, w1, h2), w2).

(** One update cycle after the mount. *)
Definition one_update : list (Engine * Props) := [(failing, props 7 2)].

(** Two loading results, then the data, then whatever else the engine
    might emit. *)
Definition loads_then_data : list Notification :=
  [Next (result 10 None true 1 None); Next (result 11 None true 1 None);
   Next (item 12); Next (item 13); Complete].

(** The options of [with_id 1] with other callbacks, display name and
    server-rendering toggle, as a component passing inline callbacks
    produces on every render. *)
Definition with_callbacks (callback : nat) (name : string)
    : option QueryHookOptions :=
  Some {| skip := Some false; ssr := Some false;
          onCompleted := Some callback; onError := Some (S callback);
          displayName := Some name; fetchPolicy := None; context := None;
          variables := Some (JObj [("id", JNum 1)]); forwarded := [] |}.

Definition rerenders : list (Engine * Props) :=
  [(failing,
    {| p_client := 7; p_query := item_query;
       p_options := with_callbacks 20 "ItemCard" |});
   (answering (item 3),
    {| p_client := 7; p_query := item_query;
       p_options := with_callbacks 30 "ItemRow" |})].

(** [query Other { other }], abridged. *)
Definition other_query : DocumentNode :=
  JObj [("kind", JStr "Document"); ("name", JStr "Other")].

(** No handle reports variables. *)
Definition no_variables : ObservableQuery -> option Json := fun _ => None.

(** The instance left by a first render in a browser. *)
Definition rendered_once : Instance * World :=
  let r := first_render failing no_variables (props 7 1) browser in
  (snd (fst r), snd r).

(** The engine over four reads: the same item, each time as a new object,
    once with an error that the three compared fields do not show. *)
Definition steady_engines : list Engine :=
  [answering (item 4); answering (item 5);
   answering (result 6 (data (item 4)) false 7 (Some {| message := "late" |}))].

(** Two results, an error, then more of the same and a disposal. *)
Definition results_then_error : list StoreEvent :=
  [Emits (Next (item 1)); Emits (Next (item 2));
   Emits (Error {| message := "500" |});
   Emits (Next (item 3)); Disposes; Emits (Error {| message := "again" |})].

(** The same component, now asked for another query. *)
Definition other_props : Props :=
  {| p_client := 7; p_query := other_query; p_options := with_id 1 |}.

(** A caller asking for "network-only" and passing no context of its
    own. *)
Definition always_network : option QueryHookOptions :=
  Some {| skip := None; ssr := None; onCompleted := None; onError := None;
          displayName := None; fetchPolicy := Some network_only;
          context := None;
          variables := Some (JObj [("id", JNum 1)]); forwarded := [] |}.

End Scenario.

(* ================================================================== *)
(** ** Deep equality is equality of the trees                           *)
(* ================================================================== *)

Section JsonInduction.

Variable P : Json -> Prop.
Hypothesis P_null : P JNull.
Hypothesis P_bool : forall b, P (JBool b).
Hypothesis P_num : forall z, P (JNum z).
Hypothesis P_str : forall s, P (JStr s).
Hypothesis P_arr : forall items, Forall P items -> P (JArr items).
Hypothesis P_obj :
  forall fields, Forall (fun kv => P (snd kv)) fields -> P (JObj fields).

Lemma Json_nested_ind : forall j, P j.
Proof.
  fix IH 1.
  intros [ | b | z | s | items | fields ].
  - exact P_null.
  - apply P_bool.
  - apply P_num.
  - apply P_str.
  - apply P_arr. revert items.
    fix IHitems 1.
    intros [ | x items ]; constructor; [ apply IH | apply IHitems ].
  - apply P_obj. revert fields.
    fix IHfields 1.
    intros [ | [k x] fields ]; constructor; [ apply IH | apply IHfields ].
Qed.

End JsonInduction.

Lemma equal_spec : forall a b, equal a b = true <-> a = b.
Proof.
  induction a using Json_nested_ind; intros [ | b' | z' | s' | ys | ys ];
    simpl; try (split; [ discriminate | congruence ]).
  - tauto.
  - rewrite Bool.eqb_true_iff. split; congruence.
  - rewrite Z.eqb_eq. split; congruence.
  - rewrite String.eqb_eq. split; congruence.
  - revert ys.
    induction H as [ | x xs Hx _ IHxs ]; intros [ | y ys ];
      try (split; [ discriminate | congruence ]).
    + tauto.
    + rewrite andb_true_iff, Hx, IHxs. split.
      * intros [-> E]. injection E as ->. reflexivity.
      * intros E. injection E as -> ->. auto.
  - revert ys.
    induction H as [ | [k x] xs Hx _ IHxs ]; intros [ | [k' y] ys ];
      try (split; [ discriminate | congruence ]).
    + tauto.
    + simpl in Hx.
      rewrite !andb_true_iff, String.eqb_eq, Hx, IHxs. split.
      * intros [[-> ->] E]. injection E as ->. reflexivity.
      * intros E. injection E as -> -> ->. auto.
Qed.

Lemma equal_opt_spec : forall a b, equal_opt a b = true <-> a = b.
Proof.
  intros [a | ] [b | ]; simpl; try (split; [ discriminate | congruence ]).
  - rewrite equal_spec. split; congruence.
  - tauto.
Qed.

Lemma equal_opt_trans :
  forall a b c,
    equal_opt a b = true -> equal_opt b c = true -> equal_opt a c = true.
Proof.
  intros a b c Hab Hbc.
  apply equal_opt_spec in Hab, Hbc. apply equal_opt_spec. congruence.
Qed.

Lemma unchanged_trans :
  forall p q r, unchanged p q = true -> unchanged q r = true ->
                unchanged p r = true.
Proof.
  unfold unchanged. intros p q r Hpq Hqr.
  apply andb_true_iff in Hpq as [Hpq Dpq]. apply andb_true_iff in Hpq as [Lpq Npq].
  apply andb_true_iff in Hqr as [Hqr Dqr]. apply andb_true_iff in Hqr as [Lqr Nqr].
  apply Bool.eqb_prop in Lpq, Lqr. apply Z.eqb_eq in Npq, Nqr.
  rewrite Lpq, Lqr, Npq, Nqr, Bool.eqb_reflx, Z.eqb_refl.
  simpl. eapply equal_opt_trans; eassumption.
Qed.

(* ================================================================== *)
(** ** The parameter normaliser                                         *)
(* ================================================================== *)

(** The normaliser always leaves a fetch policy in the configuration. *)
Lemma createWatchQueryOptions_has_policy :
  forall query options,
    present (wq_fetchPolicy (createWatchQueryOptions query options)) = true.
Proof.
  intros query options. unfold createWatchQueryOptions, normalized_fetchPolicy.
  simpl.
  destruct (truthy _); [ reflexivity | ].
  destruct (context_renderPromises _ && _); [ reflexivity | ].
  destruct (fetchPolicy _); reflexivity.
Qed.

(** With no fetch policy supplied and no coordinator in the options'
    context, the policy defaults to "cache-first"; a supplied policy that
    is not downgraded is forwarded. *)
Example default_policy_is_cache_first :
  wq_fetchPolicy (createWatchQueryOptions Scenario.item_query None)
  = Some cache_first
  /\ wq_fetchPolicy
       (createWatchQueryOptions Scenario.item_query (Scenario.with_id 1))
     = Some cache_first.
Proof. split; reflexivity. Qed.

Lemma supplied_policy_is_forwarded :
  forall query o p,
    truthy (skip o) = false ->
    context_renderPromises (context o) = false ->
    fetchPolicy o = Some p ->
    wq_fetchPolicy (createWatchQueryOptions query (Some o)) = Some p.
Proof.
  intros query o p Hskip Hctx Hp.
  unfold createWatchQueryOptions, normalized_fetchPolicy. simpl.
  rewrite Hskip, Hctx, Hp. reflexivity.
Qed.

(** C6. With the skip flag set, the normalised configuration's fetch policy
    is "standby", whatever fetch policy, context or other option the caller
    supplied. *)
Theorem skip_forces_standby :
  forall (query : DocumentNode) (o : QueryHookOptions),
    skip o = Some true ->
    wq_fetchPolicy (createWatchQueryOptions query (Some o)) = Some standby.
Proof.
  intros query o Hskip.
  unfold createWatchQueryOptions, normalized_fetchPolicy. simpl.
  rewrite Hskip. reflexivity.
Qed.

Lemma skip_forces_standby_witness :
  wq_fetchPolicy
    (createWatchQueryOptions Scenario.item_query
       (Some {| skip := Some true; ssr := None; onCompleted := None;
                onError := None; displayName := None;
                fetchPolicy := Some network_only;
                context := Some {| ctx_renderPromises := Some 0;
                                   ctx_entries := JObj [] |};
                variables := None; forwarded := [] |}))
  = Some standby.
Proof.
  apply skip_forces_standby. reflexivity.
Defined.

(** The downgrade as the normaliser makes it: it needs the skip flag not
    set, a fetch policy of "network-only" or "cache-and-network", and a
    coordinator in the [context] the caller put into the options.  The
    coordinator of the React context is not an input of the normaliser. *)
Theorem hydration_downgrades_network_policies :
  forall (query : DocumentNode) (o : QueryHookOptions),
    truthy (skip o) = false ->
    context_renderPromises (context o) = true ->
    fetchPolicy o = Some network_only \/ fetchPolicy o = Some cache_and_network ->
    wq_fetchPolicy (createWatchQueryOptions query (Some o)) = Some cache_first.
Proof.
  intros query o Hskip Hctx Hpolicy.
  unfold createWatchQueryOptions, normalized_fetchPolicy. simpl.
  rewrite Hskip, Hctx.
  destruct Hpolicy as [-> | ->]; reflexivity.
Qed.

Lemma hydration_downgrades_network_policies_witness :
  wq_fetchPolicy
    (createWatchQueryOptions Scenario.item_query
       (Some {| skip := Some false; ssr := None; onCompleted := None;
                onError := None; displayName := None;
                fetchPolicy := Some cache_and_network;
                context := Some {| ctx_renderPromises := Some 0;
                                   ctx_entries := JObj [] |};
                variables := None; forwarded := [] |}))
  = Some cache_first.
Proof.
  apply hydration_downgrades_network_policies.
  - reflexivity.
  - reflexivity.
  - right. reflexivity.
Defined.

(* ================================================================== *)
(** ** The memoiser                                                     *)
(* ================================================================== *)

Lemma getSnapshot_returns_memo :
  forall E o m, snd (getSnapshot E o m) = Some (fst (getSnapshot E o m)).
Proof. reflexivity. Qed.

Lemma getSnapshot_cases :
  forall E o p,
    fst (getSnapshot E o (Some p))
    = if unchanged p (getCurrentResult E o) then p else getCurrentResult E o.
Proof. reflexivity. Qed.

(** A read whose result agrees with the memoised one on the three compared
    fields returns the memoised object. *)
Lemma getSnapshot_keeps_memo :
  forall E o p,
    unchanged p (getCurrentResult E o) = true ->
    getSnapshot E o (Some p) = (p, Some p).
Proof.
  intros E o p U. unfold getSnapshot. rewrite U. reflexivity.
Qed.

(** The first read of a memoiser returns the engine's result. *)
Lemma getSnapshot_first :
  forall E o, fst (getSnapshot E o None) = getCurrentResult E o.
Proof. reflexivity. Qed.

Lemma unchanged_true :
  forall p r,
    unchanged p r = true <->
    loading p = loading r /\ networkStatus p = networkStatus r
    /\ data p = data r.
Proof.
  intros p r. unfold unchanged.
  rewrite !andb_true_iff, Bool.eqb_true_iff, Z.eqb_eq, equal_opt_spec. tauto.
Qed.

Lemma unchanged_false :
  forall p r,
    unchanged p r = false <->
    loading p <> loading r \/ networkStatus p <> networkStatus r
    \/ data p <> data r.
Proof.
  intros p r. unfold unchanged.
  rewrite !andb_false_iff, Bool.eqb_false_iff, Z.eqb_neq.
  rewrite <- equal_opt_spec, not_true_iff_false. tauto.
Qed.

(** C2, as stated, fails.  The memoised result and the current one differ in
    their error and agree on loading, network status and data: the read
    returns the memoised object, not the new one. *)
Lemma error_change_alone_is_suppressed :
  error (getCurrentResult (Scenario.answering Scenario.second_failure)
           {| obs_id := 0 |})
    <> error Scenario.first_failure
  /\ fst (getSnapshot (Scenario.answering Scenario.second_failure)
            {| obs_id := 0 |} (Some Scenario.first_failure))
     = Scenario.first_failure
  /\ fst (getSnapshot (Scenario.answering Scenario.second_failure)
            {| obs_id := 0 |} (Some Scenario.first_failure))
     <> getCurrentResult (Scenario.answering Scenario.second_failure)
          {| obs_id := 0 |}.
Proof.
  repeat split; try reflexivity; discriminate.
Qed.

(** C2, amended.  On a read whose current result differs in its error from
    the memoised one, [getSnapshot] returns the new result object exactly
    when loading, network status or data (deeply) differ as well; when those
    three agree it returns the memoised object. *)
Theorem error_change_needs_other_change :
  forall (E : Engine) (o : ObservableQuery) (previousResult : ApolloQueryResult),
    error (getCurrentResult E o) <> error previousResult ->
    (fst (getSnapshot E o (Some previousResult)) = getCurrentResult E o
     <-> (loading previousResult <> loading (getCurrentResult E o)
          \/ networkStatus previousResult <> networkStatus (getCurrentResult E o)
          \/ data previousResult <> data (getCurrentResult E o)))
    /\ (fst (getSnapshot E o (Some previousResult)) <> getCurrentResult E o
        -> fst (getSnapshot E o (Some previousResult)) = previousResult).
Proof.
  intros E o p Herr. rewrite getSnapshot_cases.
  set (r := getCurrentResult E o) in *.
  destruct (unchanged p r) eqn:U.
  - apply unchanged_true in U as (L & N & D). split; [ split | reflexivity ].
    + intros ->. contradiction.
    + intros [ H | [ H | H ] ]; contradiction.
  - apply unchanged_false in U. split; [ tauto | congruence ].
Qed.

Lemma error_change_needs_other_change_witness :
  (fst (getSnapshot (Scenario.answering Scenario.second_failure)
          {| obs_id := 0 |} (Some (Scenario.item 3)))
   = Scenario.second_failure
   <-> (loading (Scenario.item 3) <> loading Scenario.second_failure
        \/ networkStatus (Scenario.item 3)
            <> networkStatus Scenario.second_failure
        \/ data (Scenario.item 3) <> data Scenario.second_failure))
  /\ (fst (getSnapshot (Scenario.answering Scenario.second_failure)
             {| obs_id := 0 |} (Some (Scenario.item 3)))
      <> Scenario.second_failure
      -> fst (getSnapshot (Scenario.answering Scenario.second_failure)
                {| obs_id := 0 |} (Some (Scenario.item 3)))
         = Scenario.item 3).
Proof.
  apply (error_change_needs_other_change
           (Scenario.answering Scenario.second_failure)
           {| obs_id := 0 |} (Scenario.item 3)).
  simpl. discriminate.
Defined.

(** C3. Two consecutive reads on one memoiser whose current results agree
    on loading, on network status and, deeply, on data: the second read
    returns the very object the first read returned. *)
Theorem getSnapshot_stable :
  forall (E1 E2 : Engine) (o : ObservableQuery)
         (previousResult : option ApolloQueryResult),
    loading (getCurrentResult E1 o) = loading (getCurrentResult E2 o) ->
    networkStatus (getCurrentResult E1 o)
      = networkStatus (getCurrentResult E2 o) ->
    equal_opt (data (getCurrentResult E1 o)) (data (getCurrentResult E2 o))
      = true ->
    fst (getSnapshot E2 o (snd (getSnapshot E1 o previousResult)))
    = fst (getSnapshot E1 o previousResult).
Proof.
  intros E1 E2 o m L N D.
  assert (U12 : unchanged (getCurrentResult E1 o) (getCurrentResult E2 o) = true).
  { apply unchanged_true. apply equal_opt_spec in D. auto. }
  rewrite getSnapshot_returns_memo, getSnapshot_cases.
  destruct m as [ p | ]; [ rewrite getSnapshot_cases | ]; simpl.
  - destruct (unchanged p (getCurrentResult E1 o)) eqn:U01.
    + rewrite (unchanged_trans _ _ _ U01 U12). reflexivity.
    + rewrite U12. reflexivity.
  - rewrite U12. reflexivity.
Qed.

Lemma getSnapshot_stable_witness :
  fst (getSnapshot (Scenario.answering (Scenario.item 5)) {| obs_id := 0 |}
         (snd (getSnapshot (Scenario.answering (Scenario.item 4))
                 {| obs_id := 0 |} (Some (Scenario.item 3)))))
  = fst (getSnapshot (Scenario.answering (Scenario.item 4)) {| obs_id := 0 |}
           (Some (Scenario.item 3))).
Proof.
  apply getSnapshot_stable; reflexivity.
Defined.

(* ================================================================== *)
(** ** The reconciler                                                   *)
(* ================================================================== *)

Arguments lookupExistingHandle : simpl never.
Arguments createWatchQueryOptions : simpl never.

Ltac step_monad :=
  unfold useEffect_body, mount, useState_initializer, bind, ret, watchQuery,
    setOptions, drop, catch, getSSRObservable, registerSSRObservable,
    addQueryPromise, with_renderPromises, has_renderPromises; simpl.

(** The three branches of an update cycle. *)
Lemma useEffect_body_replace :
  forall E client query options h w,
    negb (Nat.eqb (ref_client (ref h)) client)
    || negb (equal (ref_query (ref h)) query) = true ->
    useEffect_body E client query options h w
    = ({| ref := assign (ref h) client query options;
          obsQuery := {| obs_id := created_handles w |} |},
       {| created_handles := S (created_handles w);
          calls := calls w ++
                   [WatchQuery client (createWatchQueryOptions query options)
                      {| obs_id := created_handles w |}];
          renderPromises := renderPromises w;
          unhandled := unhandled w |}).
Proof.
  intros E client query options h w Hc. step_monad. rewrite Hc. reflexivity.
Qed.

Lemma useEffect_body_reconfigure :
  forall E client query options h w,
    negb (Nat.eqb (ref_client (ref h)) client)
    || negb (equal (ref_query (ref h)) query) = false ->
    equal_options (ref_watchQueryOptions (ref h))
      (createWatchQueryOptions query options) = false ->
    useEffect_body E client query options h w
    = ({| ref := assign (ref h) client query options;
          obsQuery := obsQuery h |},
       {| created_handles := created_handles w;
          calls := calls w ++
                   [SetOptions (obsQuery h)
                      (createWatchQueryOptions query options)];
          renderPromises := renderPromises w;
          unhandled := unhandled w |}).
Proof.
  intros E client query options h w Hc Hd. step_monad. rewrite Hc, Hd. simpl.
  destruct (setOptions_settles E (obsQuery h) _); reflexivity.
Qed.

Lemma useEffect_body_reuse :
  forall E client query options h w,
    negb (Nat.eqb (ref_client (ref h)) client)
    || negb (equal (ref_query (ref h)) query) = false ->
    equal_options (ref_watchQueryOptions (ref h))
      (createWatchQueryOptions query options) = true ->
    useEffect_body E client query options h w
    = ({| ref := assign (ref h) client query options;
          obsQuery := obsQuery h |}, w).
Proof.
  intros E client query options h w Hc Hd. step_monad. rewrite Hc, Hd.
  reflexivity.
Qed.

Lemma useEffect_body_ref :
  forall E client query options h w,
    ref (fst (useEffect_body E client query options h w))
    = assign (ref h) client query options.
Proof.
  intros E client query options h w.
  destruct (negb (Nat.eqb (ref_client (ref h)) client)
            || negb (equal (ref_query (ref h)) query)) eqn:Hc.
  - rewrite useEffect_body_replace by assumption. reflexivity.
  - destruct (equal_options (ref_watchQueryOptions (ref h))
                (createWatchQueryOptions query options)) eqn:Hd.
    + rewrite useEffect_body_reuse by assumption. reflexivity.
    + rewrite useEffect_body_reconfigure by assumption. reflexivity.
Qed.

Lemma useEffect_body_handle_created :
  forall E client query options h w,
    handle_created h w ->
    handle_created (fst (useEffect_body E client query options h w))
                   (snd (useEffect_body E client query options h w)).
Proof.
  intros E client query options h w Hh. unfold handle_created in *.
  destruct (negb (Nat.eqb (ref_client (ref h)) client)
            || negb (equal (ref_query (ref h)) query)) eqn:Hc.
  - rewrite useEffect_body_replace by assumption. simpl. lia.
  - destruct (equal_options (ref_watchQueryOptions (ref h))
                (createWatchQueryOptions query options)) eqn:Hd.
    + rewrite useEffect_body_reuse by assumption. assumption.
    + rewrite useEffect_body_reconfigure by assumption. assumption.
Qed.

Lemma lookupExistingHandle_in :
  forall rp options o,
    lookupExistingHandle rp options = Some o ->
    exists options', In (options', o) (ssrObservables rp).
Proof.
  intros rp options o. unfold lookupExistingHandle.
  destruct (find _ (ssrObservables rp)) as [ [options' o'] | ] eqn:F;
    [ | discriminate ].
  intros [= <-]. apply find_some in F as [Hin _]. eauto.
Qed.

(** The three ways a mount can go: no coordinator, a handle adopted from
    the coordinator, a handle created and handed to the coordinator. *)
Lemma mount_without_coordinator :
  forall E client query options w,
    renderPromises w = None ->
    mount E client query options w
    = ({| ref := useRef_initial client query options;
          obsQuery := {| obs_id := created_handles w |} |},
       {| created_handles := S (created_handles w);
          calls := calls w ++
                   [WatchQuery client (createWatchQueryOptions query options)
                      {| obs_id := created_handles w |}];
          renderPromises := None;
          unhandled := unhandled w |}).
Proof.
  intros E client query options w R. step_monad. rewrite R. simpl.
  rewrite R. reflexivity.
Qed.

Lemma mount_adopts :
  forall E client query options w rp o,
    renderPromises w = Some rp ->
    lookupExistingHandle rp (createWatchQueryOptions query options) = Some o ->
    mount E client query options w
    = ({| ref := useRef_initial client query options; obsQuery := o |},
       if is_not_false (options_ssr options)
          && negb (truthy (options_skip options))
          && loading (getCurrentResult E o)
       then {| created_handles := created_handles w;
               calls := calls w;
               renderPromises :=
                 Some {| ssrObservables := ssrObservables rp;
                         queryPromises :=
                           queryPromises rp ++
                           [{| getOptions :=
                                 createWatchQueryOptions query options;
                               fetchData_on := o |}] |};
               unhandled := unhandled w |}
       else w).
Proof.
  intros E client query options w rp o R L. step_monad.
  rewrite R. simpl. rewrite R, L. simpl.
  destruct (is_not_false _ && _ && _); simpl; rewrite ?R; reflexivity.
Qed.

Lemma mount_creates :
  forall E client query options w rp,
    renderPromises w = Some rp ->
    lookupExistingHandle rp (createWatchQueryOptions query options) = None ->
    let o := {| obs_id := created_handles w |} in
    let options' := createWatchQueryOptions query options in
    mount E client query options w
    = ({| ref := useRef_initial client query options; obsQuery := o |},
       {| created_handles := S (created_handles w);
          calls := calls w ++ [WatchQuery client options' o];
          renderPromises :=
            Some {| ssrObservables := ssrObservables rp ++ [(options', o)];
                    queryPromises :=
                      if is_not_false (options_ssr options)
                         && negb (truthy (options_skip options))
                         && loading (getCurrentResult E o)
                      then queryPromises rp ++
                           [{| getOptions := options'; fetchData_on := o |}]
                      else queryPromises rp |};
          unhandled := unhandled w |}).
Proof.
  intros E client query options w rp R L. step_monad.
  rewrite R. simpl. rewrite R, L. simpl. rewrite R. simpl.
  destruct (is_not_false _ && _ && _); reflexivity.
Qed.

Ltac mount_cases E client query options w :=
  let rp := fresh "rp" in
  let o := fresh "o" in
  let R := fresh "R" in
  let L := fresh "L" in
  destruct (renderPromises w) as [ rp | ] eqn:R;
  [ destruct (lookupExistingHandle rp (createWatchQueryOptions query options))
      as [ o | ] eqn:L;
    [ rewrite (mount_adopts E client query options w rp o R L)
    | rewrite (mount_creates E client query options w rp R L) ]
  | rewrite (mount_without_coordinator E client query options w R) ].

Lemma mount_handle_created :
  forall E client query options w,
    coordinator_handles_created w ->
    handle_created (fst (mount E client query options w))
                   (snd (mount E client query options w)).
Proof.
  intros E client query options w Hw.
  unfold handle_created, coordinator_handles_created in *.
  mount_cases E client query options w; simpl; try lia.
  apply lookupExistingHandle_in in L as [options' Hin].
  rewrite Forall_forall in Hw. specialize (Hw _ Hin). simpl in Hw.
  destruct (is_not_false _ && _ && _); simpl; exact Hw.
Qed.

Lemma mount_ref :
  forall E client query options w,
    ref (fst (mount E client query options w))
    = useRef_initial client query options.
Proof.
  intros E client query options w.
  mount_cases E client query options w; reflexivity.
Qed.

Lemma update_cycles_cons :
  forall E p rest h w,
    update_cycles ((E, p) :: rest) h w
    = update_cycles rest
        (fst (useEffect_body E (p_client p) (p_query p) (p_options p) h w))
        (snd (useEffect_body E (p_client p) (p_query p) (p_options p) h w)).
Proof.
  intros E p rest h w. simpl. unfold bind at 1.
  destruct (useEffect_body E (p_client p) (p_query p) (p_options p) h w).
  reflexivity.
Qed.

Lemma update_cycles_handle_created :
  forall cycles h w,
    handle_created h w ->
    handle_created (fst (update_cycles cycles h w))
                   (snd (update_cycles cycles h w)).
Proof.
  induction cycles as [ | [E p] rest IH ]; intros h w Hh.
  - exact Hh.
  - rewrite update_cycles_cons. apply IH.
    apply useEffect_body_handle_created. exact Hh.
Qed.

Lemma update_cycles_ref :
  forall cycles h w initial inputs,
    ref h = ref_after initial inputs ->
    ref (fst (update_cycles cycles h w))
    = ref_after initial (last (map snd cycles) inputs).
Proof.
  induction cycles as [ | [E p] rest IH ]; intros h w initial inputs Hr.
  - exact Hr.
  - rewrite update_cycles_cons.
    rewrite (IH _ _ initial p).
    + f_equal. simpl. destruct (map snd rest) eqn:M; [ reflexivity | ].
      clear. revert p0 inputs. induction l as [ | x l IHl ]; intros p0 inputs.
      * reflexivity.
      * simpl in *. apply IHl.
    + rewrite useEffect_body_ref, Hr. reflexivity.
Qed.

Lemma run_unfold :
  forall E0 p0 cycles w,
    run E0 p0 cycles w
    = update_cycles cycles
        (fst (mount E0 (p_client p0) (p_query p0) (p_options p0) w))
        (snd (mount E0 (p_client p0) (p_query p0) (p_options p0) w)).
Proof.
  intros E0 p0 cycles w. unfold run, bind at 1.
  destruct (mount E0 (p_client p0) (p_query p0) (p_options p0) w).
  reflexivity.
Qed.

Lemma run_handle_created :
  forall E0 p0 cycles w,
    coordinator_handles_created w ->
    handle_created (fst (run E0 p0 cycles w)) (snd (run E0 p0 cycles w)).
Proof.
  intros E0 p0 cycles w Hw. rewrite run_unfold.
  apply update_cycles_handle_created, mount_handle_created, Hw.
Qed.

Lemma run_ref :
  forall E0 p0 cycles w,
    ref (fst (run E0 p0 cycles w))
    = ref_after (createWatchQueryOptions (p_query p0) (p_options p0))
        (previous p0 cycles).
Proof.
  intros E0 p0 cycles w. rewrite run_unfold.
  apply update_cycles_ref, mount_ref.
Qed.

(** C10. After the mount and any number of update cycles, the cell of
    [useRef] holds the client, query and options of the latest cycle, and
    its [watchQueryOptions] is still the configuration computed from the
    inputs of the mount. *)
Theorem ref_keeps_initial_watchQueryOptions :
  forall (E0 : Engine) (p0 : Props) (cycles : list (Engine * Props))
         (w : World),
    ref (fst (run E0 p0 cycles w))
    = {| ref_client := p_client (previous p0 cycles);
         ref_query := p_query (previous p0 cycles);
         ref_options := p_options (previous p0 cycles);
         ref_watchQueryOptions :=
           createWatchQueryOptions (p_query p0) (p_options p0) |}.
Proof.
  intros E0 p0 cycles w. apply run_ref.
Qed.

(** C4. On an update cycle whose client is not the previous cycle's, or
    whose query is not deeply equal to the previous cycle's, the current
    handle is replaced: the handle in use afterwards is one the engine has
    just created from the newly normalised configuration, it is not the old
    handle, and that creation is the only call made to the engine. *)
Theorem changed_client_or_query_replaces_handle :
  forall (E0 : Engine) (p0 : Props) (cycles : list (Engine * Props))
         (w0 : World) (E : Engine) (p : Props),
    coordinator_handles_created w0 ->
    p_client (previous p0 cycles) <> p_client p
    \/ equal (p_query (previous p0 cycles)) (p_query p) = false ->
    let h := fst (run E0 p0 cycles w0) in
    let w := snd (run E0 p0 cycles w0) in
    let h' :=
      fst (useEffect_body E (p_client p) (p_query p) (p_options p) h w) in
    let w' :=
      snd (useEffect_body E (p_client p) (p_query p) (p_options p) h w) in
    obsQuery h' <> obsQuery h
    /\ obs_id (obsQuery h') = created_handles w
    /\ calls w'
       = calls w ++
         [WatchQuery (p_client p)
            (createWatchQueryOptions (p_query p) (p_options p))
            (obsQuery h')]
    /\ configured_with (calls w') (obsQuery h')
       = Some (createWatchQueryOptions (p_query p) (p_options p)).
Proof.
  intros E0 p0 cycles w0 E p Hw Hchange h w h' w'.
  assert (Hh : handle_created h w) by (apply run_handle_created, Hw).
  assert (Hc : negb (Nat.eqb (ref_client (ref h)) (p_client p))
               || negb (equal (ref_query (ref h)) (p_query p)) = true).
  { subst h. rewrite run_ref. simpl.
    destruct Hchange as [ Hn | Hq ].
    - apply Nat.eqb_neq in Hn. rewrite Hn. reflexivity.
    - rewrite Hq. apply orb_true_r. }
  subst h' w'.
  rewrite (useEffect_body_replace E _ _ _ h w Hc). simpl.
  unfold handle_created in Hh.
  repeat split.
  - intros Heq. rewrite <- Heq in Hh. simpl in Hh. lia.
  - clear. induction (calls w) as [ | c l IH ]; simpl.
    + unfold ObservableQuery_eqb. simpl. rewrite Nat.eqb_refl. reflexivity.
    + rewrite IH. reflexivity.
Qed.

Lemma changed_client_or_query_replaces_handle_witness :
  obsQuery
    (fst (useEffect_body Scenario.failing 8 Scenario.item_query
            (Scenario.with_id 2)
            (fst (run Scenario.failing (Scenario.props 7 1)
                    Scenario.one_update Scenario.browser))
            (snd (run Scenario.failing (Scenario.props 7 1)
                    Scenario.one_update Scenario.browser))))
  <> obsQuery (fst (run Scenario.failing (Scenario.props 7 1)
                      Scenario.one_update Scenario.browser)).
Proof.
  apply (changed_client_or_query_replaces_handle
           Scenario.failing (Scenario.props 7 1) Scenario.one_update
           Scenario.browser Scenario.failing (Scenario.props 8 2)).
  - exact I.
  - left. simpl. discriminate.
Defined.

(** X9. What the comparison of the update cycle is made against: with the
    client and the query unchanged, the handle is kept, and [setOptions] is
    called, once, exactly when the new configuration differs from the
    configuration of the mount. *)
Lemma reconfigured_iff_differs_from_initial :
  forall E0 p0 cycles w0 E p,
    p_client (previous p0 cycles) = p_client p ->
    equal (p_query (previous p0 cycles)) (p_query p) = true ->
    let h := fst (run E0 p0 cycles w0) in
    let w := snd (run E0 p0 cycles w0) in
    let new := createWatchQueryOptions (p_query p) (p_options p) in
    snd (useEffect_body E (p_client p) (p_query p) (p_options p) h w)
    = (if equal_options
            (createWatchQueryOptions (p_query p0) (p_options p0)) new
       then w
       else {| created_handles := created_handles w;
               calls := calls w ++ [SetOptions (obsQuery h) new];
               renderPromises := renderPromises w;
               unhandled := unhandled w |})
    /\ obsQuery
         (fst (useEffect_body E (p_client p) (p_query p) (p_options p) h w))
       = obsQuery h.
Proof.
  intros E0 p0 cycles w0 E p Hclient Hquery h w new.
  assert (Hr : ref h = ref_after
                         (createWatchQueryOptions (p_query p0) (p_options p0))
                         (previous p0 cycles)) by apply run_ref.
  assert (Hc : negb (Nat.eqb (ref_client (ref h)) (p_client p))
               || negb (equal (ref_query (ref h)) (p_query p)) = false).
  { rewrite Hr. simpl. rewrite Hclient, Nat.eqb_refl, Hquery. reflexivity. }
  destruct (equal_options
              (createWatchQueryOptions (p_query p0) (p_options p0)) new)
    eqn:Hd.
  - rewrite useEffect_body_reuse; [ split; reflexivity | exact Hc | ].
    rewrite Hr. exact Hd.
  - rewrite useEffect_body_reconfigure; [ split; reflexivity | exact Hc | ].
    rewrite Hr. exact Hd.
Qed.

(** C1, on the code.  Mounted with [id = 1] and updated to [id = 2], the
    handle was last configured with [id = 2].  A further cycle that asks for
    [id = 1] again, with the same client and query, brings a configuration
    that differs from it, and yet makes no call to the engine: the handle
    stays configured with [id = 2]. *)
Theorem revert_to_initial_configuration_is_not_applied :
  configured_with
    (calls (snd (fst (fst (Scenario.back_to_first Scenario.browser)))))
    (obsQuery (fst (fst (fst (Scenario.back_to_first Scenario.browser)))))
  = Some (createWatchQueryOptions Scenario.item_query (Scenario.with_id 2))
  /\ equal_options
       (createWatchQueryOptions Scenario.item_query (Scenario.with_id 2))
       (createWatchQueryOptions Scenario.item_query (Scenario.with_id 1))
     = false
  /\ obsQuery (snd (fst (Scenario.back_to_first Scenario.browser)))
     = obsQuery (fst (fst (fst (Scenario.back_to_first Scenario.browser))))
  /\ calls (snd (Scenario.back_to_first Scenario.browser))
     = calls (snd (fst (fst (Scenario.back_to_first Scenario.browser))))
  /\ configured_with
       (calls (snd (Scenario.back_to_first Scenario.browser)))
       (obsQuery (snd (fst (Scenario.back_to_first Scenario.browser))))
     = Some (createWatchQueryOptions Scenario.item_query (Scenario.with_id 2)).
Proof.
  repeat split; vm_compute; reflexivity.
Qed.

(** The converse failure: a cycle that brings the configuration the handle
    was last configured with calls [setOptions] all the same, because that
    configuration differs from the one of the mount. *)
Lemma unchanged_configuration_is_applied_again :
  configured_with
    (calls (snd (fst (fst (Scenario.same_again Scenario.browser)))))
    (obsQuery (fst (fst (fst (Scenario.same_again Scenario.browser)))))
  = Some (createWatchQueryOptions Scenario.item_query (Scenario.with_id 2))
  /\ calls (snd (Scenario.same_again Scenario.browser))
     = calls (snd (fst (fst (Scenario.same_again Scenario.browser))))
       ++ [SetOptions
             (obsQuery (fst (fst (fst (Scenario.same_again Scenario.browser)))))
             (createWatchQueryOptions Scenario.item_query
                (Scenario.with_id 2))].
Proof.
  split; vm_compute; reflexivity.
Qed.

(** A rejected promise that is dropped without a handler is reported. *)
Lemma drop_rejected_is_reported :
  forall (A : Type) (reason : ApolloError) (w : World),
    unhandled (snd (drop (@Rejected A reason) w)) = unhandled w ++ [reason].
Proof. reflexivity. Qed.

(** C5. On a soft reconfigure (client and query unchanged, configuration
    differing from the one compared against) whose [setOptions] promise is
    rejected, the rejection is caught: nothing is reported as unhandled, the
    cycle ends with the handle kept and the cell of [useRef] updated, and
    the only call made is that [setOptions]. *)
Theorem rejected_setOptions_is_swallowed :
  forall (E : Engine) (client : ApolloClient) (query : DocumentNode)
         (options : option QueryHookOptions) (h : Hook) (w : World)
         (reason : ApolloError),
    ref_client (ref h) = client ->
    equal (ref_query (ref h)) query = true ->
    equal_options (ref_watchQueryOptions (ref h))
      (createWatchQueryOptions query options) = false ->
    setOptions_settles E (obsQuery h) (createWatchQueryOptions query options)
      = Rejected reason ->
    unhandled (snd (useEffect_body E client query options h w)) = unhandled w
    /\ fst (useEffect_body E client query options h w)
       = {| ref := assign (ref h) client query options;
            obsQuery := obsQuery h |}
    /\ calls (snd (useEffect_body E client query options h w))
       = calls w ++
         [SetOptions (obsQuery h) (createWatchQueryOptions query options)].
Proof.
  intros E client query options h w reason Hclient Hquery Hdiffers Hrejected.
  unfold useEffect_body, bind, ret, setOptions.
  rewrite Hclient, Nat.eqb_refl, Hquery, Hdiffers. simpl.
  rewrite Hrejected. simpl. auto.
Qed.

Lemma rejected_setOptions_is_swallowed_witness :
  unhandled
    (snd (useEffect_body Scenario.failing 7 Scenario.item_query
            (Scenario.with_id 2)
            (fst (mount Scenario.failing 7 Scenario.item_query
                    (Scenario.with_id 1) Scenario.browser))
            (snd (mount Scenario.failing 7 Scenario.item_query
                    (Scenario.with_id 1) Scenario.browser))))
  = unhandled
      (snd (mount Scenario.failing 7 Scenario.item_query
              (Scenario.with_id 1) Scenario.browser)).
Proof.
  apply (rejected_setOptions_is_swallowed
           Scenario.failing 7 Scenario.item_query (Scenario.with_id 2)
           (fst (mount Scenario.failing 7 Scenario.item_query
                   (Scenario.with_id 1) Scenario.browser))
           (snd (mount Scenario.failing 7 Scenario.item_query
                   (Scenario.with_id 1) Scenario.browser))
           {| message := "Network error" |}); reflexivity.
Defined.

(* ================================================================== *)
(** ** First initialisation and the hydration registration              *)
(* ================================================================== *)

Lemma app_one_neq : forall (A : Type) (l : list A) (x : A), l ++ [x] <> l.
Proof.
  intros A l x Heq. apply (f_equal (@List.length A)) in Heq.
  rewrite List.length_app in Heq. simpl in Heq. lia.
Qed.

Lemma registration_condition :
  forall (coordinated : bool) (options : option QueryHookOptions)
         (isLoading : bool),
    coordinated && is_not_false (options_ssr options)
    && negb (truthy (options_skip options)) && isLoading = true
    <-> coordinated = true
        /\ options_ssr options <> Some false
        /\ options_skip options <> Some true
        /\ isLoading = true.
Proof.
  intros coordinated options isLoading.
  rewrite !andb_true_iff, negb_true_iff.
  destruct (options_ssr options) as [ [ | ] | ];
    destruct (options_skip options) as [ [ | ] | ]; simpl;
    intuition (try discriminate; try congruence).
Qed.

(** The pending hydrations after a mount. *)
Lemma mount_world :
  forall E client query options w,
    let h := fst (mount E client query options w) in
    pending_hydrations (snd (mount E client query options w))
    = if present (renderPromises w)
         && is_not_false (options_ssr options)
         && negb (truthy (options_skip options))
         && loading (getCurrentResult E (obsQuery h))
      then pending_hydrations w ++
           [{| getOptions := createWatchQueryOptions query options;
               fetchData_on := obsQuery h |}]
      else pending_hydrations w.
Proof.
  intros E client query options w. unfold pending_hydrations.
  mount_cases E client query options w; simpl.
  - destruct (is_not_false _ && _ && _); simpl; rewrite ?R; reflexivity.
  - destruct (is_not_false _ && _ && _); reflexivity.
  - reflexivity.
Qed.

(** C8. At mount, a pending hydration (for the normalised configuration and
    the adopted or newly created handle) is added to the coordinator exactly
    when a coordinator is present, [ssr] is not [false], [skip] is not set
    and the handle's current result is loading; otherwise the coordinator's
    pending hydrations are left as they were. *)
Theorem hydration_registered_iff_eligible :
  forall (E : Engine) (client : ApolloClient) (query : DocumentNode)
         (options : option QueryHookOptions) (w : World),
    let h := fst (mount E client query options w) in
    let w' := snd (mount E client query options w) in
    let registration :=
      {| getOptions := createWatchQueryOptions query options;
         fetchData_on := obsQuery h |} in
    (pending_hydrations w' = pending_hydrations w ++ [registration]
     <-> present (renderPromises w) = true
         /\ options_ssr options <> Some false
         /\ options_skip options <> Some true
         /\ loading (getCurrentResult E (obsQuery h)) = true)
    /\ (pending_hydrations w' <> pending_hydrations w ++ [registration]
        -> pending_hydrations w' = pending_hydrations w).
Proof.
  intros E client query options w h w' registration.
  subst w' registration. rewrite (mount_world E client query options w).
  fold h. rewrite <- registration_condition.
  destruct (present (renderPromises w) && is_not_false (options_ssr options)
            && negb (truthy (options_skip options))
            && loading (getCurrentResult E (obsQuery h))).
  - split; [ tauto | congruence ].
  - split; [ | reflexivity ]. split; [ | discriminate ].
    intros Heq. symmetry in Heq. apply app_one_neq in Heq. contradiction.
Qed.

(** On a server-rendering pass with an engine that is still loading, the
    mount creates a handle, hands it to the coordinator and registers one
    pending hydration; in a browser nothing is registered. *)
Example mount_on_server_registers :
  pending_hydrations
    (snd (mount Scenario.failing 7 Scenario.item_query (Scenario.with_id 1)
            Scenario.server))
  = [{| getOptions :=
          createWatchQueryOptions Scenario.item_query (Scenario.with_id 1);
        fetchData_on := {| obs_id := 0 |} |}]
  /\ pending_hydrations
       (snd (mount Scenario.failing 7 Scenario.item_query (Scenario.with_id 1)
               Scenario.browser))
     = [].
Proof. split; reflexivity. Qed.

(** Nothing the hook does puts the coordinator of the React context into
    the options: with no [context] in the options and the skip flag not
    set, the supplied fetch policy is the normalised one, in whatever world
    the hook is mounted. *)
Lemma policy_kept_without_options_context :
  forall (query : DocumentNode) (o : QueryHookOptions) (p : FetchPolicy),
    truthy (skip o) = false ->
    context o = None ->
    fetchPolicy o = Some p ->
    wq_fetchPolicy (createWatchQueryOptions query (Some o)) = Some p.
Proof.
  intros query o p Hskip Hctx Hp.
  apply supplied_policy_is_forwarded; try assumption.
  rewrite Hctx. reflexivity.
Qed.

(** C7, on the code.  A server-rendering pass: the React context holds a
    coordinator, and this very mount registers a pending hydration with it.
    The skip flag is not set and the caller supplied "network-only".  The
    handle is created with a configuration whose fetch policy is still
    "network-only", not "cache-first": the normaliser looks for the
    coordinator in the options' own [context], and the hook does not put the
    React context there. *)
Theorem hydration_pass_keeps_network_only :
  present (renderPromises Scenario.server) = true
  /\ truthy (options_skip Scenario.always_network) = false
  /\ calls (snd (mount Scenario.failing 7 Scenario.item_query
                   Scenario.always_network Scenario.server))
     = [WatchQuery 7
          (createWatchQueryOptions Scenario.item_query
             Scenario.always_network)
          {| obs_id := 0 |}]
  /\ wq_fetchPolicy
       (createWatchQueryOptions Scenario.item_query Scenario.always_network)
     = Some network_only
  /\ pending_hydrations
       (snd (mount Scenario.failing 7 Scenario.item_query
               Scenario.always_network Scenario.server))
     = [{| getOptions :=
             createWatchQueryOptions Scenario.item_query
               Scenario.always_network;
           fetchData_on := {| obs_id := 0 |} |}].
Proof.
  repeat split; vm_compute; reflexivity.
Qed.

(* ================================================================== *)
(** ** The hydration waiter                                             *)
(* ================================================================== *)

Lemma deliver_after_closed :
  forall emitted s, closed s = true -> fold_left deliver emitted s = s.
Proof.
  induction emitted as [ | n rest IH ]; intros s Hs; simpl.
  - reflexivity.
  - unfold deliver at 2. rewrite Hs. apply IH, Hs.
Qed.

(** While the engine only reports loading results, the waiter is pending:
    nothing is resolved and the subscription stays open. *)
Lemma fetchData_pending :
  forall emitted,
    Forall (fun n => resolves n = None) emitted ->
    fetchData emitted = subscribed.
Proof.
  unfold fetchData. intros emitted H.
  induction H as [ | n rest Hn _ IH ]; simpl.
  - reflexivity.
  - destruct n as [ r | e | ]; simpl in Hn; try discriminate.
    unfold deliver at 2. simpl.
    destruct (loading r); [ | discriminate ]. simpl. exact IH.
Qed.

Lemma fetchData_app :
  forall before after,
    fetchData (before ++ after) = fold_left deliver after (fetchData before).
Proof. intros before after. unfold fetchData. apply fold_left_app. Qed.

(** No run of the waiter calls [resolve] more than once. *)
Lemma fetchData_resolves_at_most_once :
  forall emitted, List.length (resolved (fetchData emitted)) <= 1.
Proof.
  intros emitted. unfold fetchData.
  assert (G : forall s,
             (closed s = false -> resolved s = []) ->
             List.length (resolved s) <= 1 ->
             List.length (resolved (fold_left deliver emitted s)) <= 1).
  { induction emitted as [ | n rest IH ]; intros s Hopen Hlen; simpl.
    - exact Hlen.
    - destruct (closed s) eqn:C.
      + assert (D : deliver s n = s) by (unfold deliver; rewrite C; reflexivity).
        rewrite D, deliver_after_closed; assumption.
      + specialize (Hopen eq_refl).
        apply IH; unfold deliver; rewrite C;
          destruct n as [ r | e | ]; simpl;
          try (destruct (loading r); simpl);
          rewrite ?Hopen; simpl; intros;
          first [ discriminate | lia | assumption | reflexivity ]. }
  apply G; simpl; auto.
Qed.

(** C9. Once the handle emits its first notification that is a result not
    loading, an error or a completion, [resolve] has been called exactly
    once, by the callback for that notification, and is never called again
    whatever is emitted afterwards; the result and the error callbacks have
    each called [unsubscribe] once, the completion callback has not. *)
Theorem fetchData_resolves_exactly_once :
  forall (pending : list Notification) (n : Notification)
         (later : list Notification) (r : Resolution),
    Forall (fun m => resolves m = None) pending ->
    resolves n = Some r ->
    resolved (fetchData (pending ++ n :: later)) = [r]
    /\ unsubscribe_calls (fetchData (pending ++ n :: later))
       = match r with by_complete => 0 | by_next | by_error => 1 end
    /\ closed (fetchData (pending ++ n :: later)) = true.
Proof.
  intros pending n later r Hpending Hn.
  rewrite fetchData_app, (fetchData_pending pending Hpending). simpl.
  rewrite deliver_after_closed.
  - destruct n as [ res | e | ]; simpl in Hn.
    + destruct (loading res) eqn:L; [ discriminate | ].
      injection Hn as <-. unfold deliver. simpl. rewrite L. simpl. auto.
    + injection Hn as <-. unfold deliver. simpl. auto.
    + injection Hn as <-. unfold deliver. simpl. auto.
  - destruct n as [ res | e | ]; simpl in Hn; unfold deliver; simpl;
      [ destruct (loading res); [ discriminate | reflexivity ] | | ];
      reflexivity.
Qed.

Lemma fetchData_resolves_exactly_once_witness :
  resolved (fetchData Scenario.loads_then_data) = [by_next]
  /\ unsubscribe_calls (fetchData Scenario.loads_then_data) = 1
  /\ closed (fetchData Scenario.loads_then_data) = true.
Proof.
  apply (fetchData_resolves_exactly_once
           [Next (Scenario.result 10 None true 1 None);
            Next (Scenario.result 11 None true 1 None)]
           (Next (Scenario.item 12))
           [Next (Scenario.item 13); Complete] by_next).
  - repeat constructor.
  - reflexivity.
Defined.

(* ================================================================== *)
(** ** Deep equality of configurations                                  *)
(* ================================================================== *)

Lemma opt_eqb_spec :
  forall (A : Type) (eqb : A -> A -> bool),
    (forall x y, eqb x y = true <-> x = y) ->
    forall a b, opt_eqb eqb a b = true <-> a = b.
Proof.
  intros A eqb Heqb [ x | ] [ y | ]; simpl;
    try (split; [ discriminate | congruence ]).
  - rewrite Heqb. split; congruence.
  - tauto.
Qed.

Lemma FetchPolicy_eqb_spec :
  forall p q, FetchPolicy_eqb p q = true <-> p = q.
Proof.
  intros [] []; simpl; split; congruence.
Qed.

Lemma equal_context_spec :
  forall a b, equal_context a b = true <-> a = b.
Proof.
  intros [ra ea] [rb eb]. unfold equal_context. simpl.
  rewrite andb_true_iff, (opt_eqb_spec nat Nat.eqb Nat.eqb_eq), equal_spec.
  split.
  - intros [-> ->]. reflexivity.
  - intros [= -> ->]. auto.
Qed.

Lemma equal_options_spec :
  forall a b, equal_options a b = true <-> a = b.
Proof.
  intros [qa pa ca va fa] [qb pb cb vb fb]. unfold equal_options. simpl wq_query.
  cbn [wq_fetchPolicy wq_context wq_variables wq_forwarded].
  rewrite !andb_true_iff, !equal_spec,
    (opt_eqb_spec _ _ FetchPolicy_eqb_spec),
    (opt_eqb_spec _ _ equal_context_spec), equal_opt_spec.
  split.
  - intros [[[[-> ->] ->] ->] [= ->]]. reflexivity.
  - intros [= -> -> -> -> ->]. auto.
Qed.

Lemma equal_refl : forall a, equal a a = true.
Proof. intros a. apply equal_spec. reflexivity. Qed.

Lemma equal_options_refl : forall a, equal_options a a = true.
Proof. intros a. apply equal_options_spec. reflexivity. Qed.

Lemma unchanged_refl : forall r, unchanged r r = true.
Proof. intros r. apply unchanged_true. auto. Qed.

(* ================================================================== *)
(** ** Further properties of the parameter normaliser                   *)
(* ================================================================== *)

(** X2. The normalised fetch policy is "standby" exactly when the skip flag
    is set or the caller asked for "standby". *)
Theorem standby_iff_skip_or_supplied :
  forall (query : DocumentNode) (o : QueryHookOptions),
    wq_fetchPolicy (createWatchQueryOptions query (Some o)) = Some standby
    <-> skip o = Some true \/ fetchPolicy o = Some standby.
Proof.
  intros query o. unfold createWatchQueryOptions, normalized_fetchPolicy.
  cbn [wq_fetchPolicy].
  destruct (skip o) as [ [ | ] | ]; simpl;
    try (split; [ auto | reflexivity ]);
    destruct (context_renderPromises (context o));
    destruct (fetchPolicy o) as [ [] | ]; simpl;
    split; intros H; try discriminate; auto;
    destruct H as [ H | H ]; discriminate.
Qed.

(** X3. With a render-promises coordinator in the options' context, the
    normalised fetch policy is never "network-only" nor
    "cache-and-network", whatever else the options hold. *)
Theorem no_network_policy_under_coordinator :
  forall (query : DocumentNode) (o : QueryHookOptions),
    context_renderPromises (context o) = true ->
    wq_fetchPolicy (createWatchQueryOptions query (Some o))
      <> Some network_only
    /\ wq_fetchPolicy (createWatchQueryOptions query (Some o))
       <> Some cache_and_network.
Proof.
  intros query o Hctx. unfold createWatchQueryOptions, normalized_fetchPolicy.
  cbn [wq_fetchPolicy]. rewrite Hctx.
  destruct (truthy (skip o)); [ split; discriminate | ].
  destruct (fetchPolicy o) as [ [] | ]; simpl; split; discriminate.
Qed.

Lemma no_network_policy_under_coordinator_witness :
  wq_fetchPolicy
    (createWatchQueryOptions Scenario.item_query
       (Some {| skip := None; ssr := Some false; onCompleted := None;
                onError := None; displayName := None;
                fetchPolicy := Some network_only;
                context := Some {| ctx_renderPromises := Some 4;
                                   ctx_entries := JNull |};
                variables := None; forwarded := [] |}))
    <> Some network_only
  /\ wq_fetchPolicy
       (createWatchQueryOptions Scenario.item_query
          (Some {| skip := None; ssr := Some false; onCompleted := None;
                   onError := None; displayName := None;
                   fetchPolicy := Some network_only;
                   context := Some {| ctx_renderPromises := Some 4;
                                      ctx_entries := JNull |};
                   variables := None; forwarded := [] |}))
     <> Some cache_and_network.
Proof.
  apply no_network_policy_under_coordinator. reflexivity.
Defined.

(** X4. The configuration depends on the options only through the fields
    forwarded to the engine and the truth of the skip flag: [ssr], the two
    callbacks and the display name never reach it. *)
Theorem hook_only_options_are_stripped :
  forall (query : DocumentNode) (o o' : QueryHookOptions),
    truthy (skip o) = truthy (skip o') ->
    fetchPolicy o = fetchPolicy o' ->
    context o = context o' ->
    variables o = variables o' ->
    forwarded o = forwarded o' ->
    createWatchQueryOptions query (Some o)
    = createWatchQueryOptions query (Some o').
Proof.
  intros query o o' Hskip Hpolicy Hctx Hvars Hfwd.
  unfold createWatchQueryOptions, normalized_fetchPolicy.
  rewrite Hskip, Hpolicy, Hctx, Hvars, Hfwd. reflexivity.
Qed.

Lemma hook_only_options_are_stripped_witness :
  createWatchQueryOptions Scenario.item_query (Scenario.with_id 1)
  = createWatchQueryOptions Scenario.item_query
      (Scenario.with_callbacks 20 "ItemCard").
Proof.
  apply hook_only_options_are_stripped; reflexivity.
Defined.

(** X1. Every normalised configuration carries a fetch policy, and it is
    "cache-first" when the caller supplied none and did not set the skip
    flag, also when no options were given at all. *)
Theorem policy_always_present :
  forall (query : DocumentNode) (options : option QueryHookOptions),
    (exists p,
       wq_fetchPolicy (createWatchQueryOptions query options) = Some p)
    /\ (truthy (options_skip options) = false ->
        match options with Some o => fetchPolicy o | None => None end = None ->
        wq_fetchPolicy (createWatchQueryOptions query options)
        = Some cache_first).
Proof.
  intros query options. unfold createWatchQueryOptions, normalized_fetchPolicy.
  cbn [wq_fetchPolicy]. split.
  - destruct (truthy _); [ eauto | ].
    destruct (context_renderPromises _ && _); [ eauto | ].
    destruct options as [ o | ]; simpl;
      [ destruct (fetchPolicy o); simpl | ]; eauto.
  - destruct options as [ o | ]; simpl; [ | reflexivity ].
    intros -> ->. simpl. rewrite andb_false_r. reflexivity.
Qed.

(* ================================================================== *)
(** ** Further properties of the mount                                  *)
(* ================================================================== *)

(** X5. A mount either adopts the handle the coordinator holds for the
    configuration, and then makes no call to the engine, or creates one
    handle with a single [watchQuery] on the normalised configuration.  It
    never calls [setOptions]. *)
Theorem mount_adopts_or_creates_once :
  forall (E : Engine) (client : ApolloClient) (query : DocumentNode)
         (options : option QueryHookOptions) (w : World),
    let h := fst (mount E client query options w) in
    let w' := snd (mount E client query options w) in
    let configuration := createWatchQueryOptions query options in
    (calls w' = calls w
     /\ created_handles w' = created_handles w
     /\ exists rp, renderPromises w = Some rp
                   /\ lookupExistingHandle rp configuration
                      = Some (obsQuery h))
    \/ (calls w' = calls w ++ [WatchQuery client configuration (obsQuery h)]
        /\ created_handles w' = S (created_handles w)
        /\ obs_id (obsQuery h) = created_handles w
        /\ match renderPromises w with
           | Some rp => lookupExistingHandle rp configuration = None
           | None => True
           end).
Proof.
  intros E client query options w.
  mount_cases E client query options w; cbv zeta; simpl.
  - left. destruct (is_not_false _ && _ && _); simpl; eauto.
  - right. auto.
  - right. auto.
Qed.

(* ================================================================== *)
(** ** Further properties of the reconciler                             *)
(* ================================================================== *)

Lemma reconfigured_iff_differs_from_initial_witness :
  snd (useEffect_body Scenario.failing 7 Scenario.item_query
         (Scenario.with_id 2)
         (fst (run Scenario.failing (Scenario.props 7 1) Scenario.one_update
                 Scenario.browser))
         (snd (run Scenario.failing (Scenario.props 7 1) Scenario.one_update
                 Scenario.browser)))
  = (if equal_options
          (createWatchQueryOptions Scenario.item_query (Scenario.with_id 1))
          (createWatchQueryOptions Scenario.item_query (Scenario.with_id 2))
     then snd (run Scenario.failing (Scenario.props 7 1) Scenario.one_update
                 Scenario.browser)
     else
       {| created_handles :=
            created_handles
              (snd (run Scenario.failing (Scenario.props 7 1)
                      Scenario.one_update Scenario.browser));
          calls :=
            calls (snd (run Scenario.failing (Scenario.props 7 1)
                          Scenario.one_update Scenario.browser))
            ++ [SetOptions
                  (obsQuery
                     (fst (run Scenario.failing (Scenario.props 7 1)
                             Scenario.one_update Scenario.browser)))
                  (createWatchQueryOptions Scenario.item_query
                     (Scenario.with_id 2))];
          renderPromises :=
            renderPromises
              (snd (run Scenario.failing (Scenario.props 7 1)
                      Scenario.one_update Scenario.browser));
          unhandled :=
            unhandled
              (snd (run Scenario.failing (Scenario.props 7 1)
                      Scenario.one_update Scenario.browser)) |})
  /\ obsQuery
       (fst (useEffect_body Scenario.failing 7 Scenario.item_query
               (Scenario.with_id 2)
               (fst (run Scenario.failing (Scenario.props 7 1)
                       Scenario.one_update Scenario.browser))
               (snd (run Scenario.failing (Scenario.props 7 1)
                       Scenario.one_update Scenario.browser))))
     = obsQuery (fst (run Scenario.failing (Scenario.props 7 1)
                        Scenario.one_update Scenario.browser)).
Proof.
  apply (reconfigured_iff_differs_from_initial
           Scenario.failing (Scenario.props 7 1) Scenario.one_update
           Scenario.browser Scenario.failing (Scenario.props 7 2));
    reflexivity.
Defined.

Lemma hook_eta :
  forall h : Hook, {| ref := ref h; obsQuery := obsQuery h |} = h.
Proof. intros [r o]. reflexivity. Qed.

(** The run of the effect that follows the first render does nothing. *)
Lemma mount_effect_does_nothing :
  forall E E' client query options w,
    useEffect_body E' client query options
      (fst (mount E client query options w))
      (snd (mount E client query options w))
    = mount E client query options w.
Proof.
  intros E E' client query options w.
  rewrite useEffect_body_reuse.
  - rewrite mount_ref. unfold assign, useRef_initial. simpl.
    rewrite <- (mount_ref E client query options w) at 1.
    rewrite hook_eta. destruct (mount E client query options w). reflexivity.
  - rewrite mount_ref. simpl. rewrite Nat.eqb_refl, equal_refl. reflexivity.
  - rewrite mount_ref. simpl. apply equal_options_refl.
Qed.

(** X7. What an update cycle leaves and what it calls do not depend on the
    engine's answers: neither on the current results nor on how the promise
    of [setOptions] settles. *)
Theorem update_cycle_ignores_engine_answers :
  forall (E1 E2 : Engine) (client : ApolloClient) (query : DocumentNode)
         (options : option QueryHookOptions) (h : Hook) (w : World),
    useEffect_body E1 client query options h w
    = useEffect_body E2 client query options h w.
Proof.
  intros E1 E2 client query options h w.
  destruct (negb (Nat.eqb (ref_client (ref h)) client)
            || negb (equal (ref_query (ref h)) query)) eqn:Hc.
  - rewrite !useEffect_body_replace by assumption. reflexivity.
  - destruct (equal_options (ref_watchQueryOptions (ref h))
                (createWatchQueryOptions query options)) eqn:Hd.
    + rewrite !useEffect_body_reuse by assumption. reflexivity.
    + rewrite !useEffect_body_reconfigure by assumption. reflexivity.
Qed.

Lemma useEffect_body_frame :
  forall E client query options h w,
    renderPromises (snd (useEffect_body E client query options h w))
    = renderPromises w
    /\ unhandled (snd (useEffect_body E client query options h w))
       = unhandled w
    /\ (calls (snd (useEffect_body E client query options h w)) = calls w
        \/ exists c,
             calls (snd (useEffect_body E client query options h w))
             = calls w ++ [c]).
Proof.
  intros E client query options h w.
  destruct (negb (Nat.eqb (ref_client (ref h)) client)
            || negb (equal (ref_query (ref h)) query)) eqn:Hc.
  - rewrite useEffect_body_replace by assumption. simpl. eauto.
  - destruct (equal_options (ref_watchQueryOptions (ref h))
                (createWatchQueryOptions query options)) eqn:Hd.
    + rewrite useEffect_body_reuse by assumption. simpl. eauto.
    + rewrite useEffect_body_reconfigure by assumption. simpl. eauto.
Qed.

(** X8. Update cycles never touch the pre-render coordinator and never
    leave a rejected promise unhandled, however many there are and whatever
    the engine answers; each makes at most one call to the engine. *)
Theorem update_cycles_frame :
  forall (cycles : list (Engine * Props)) (h : Hook) (w : World),
    renderPromises (snd (update_cycles cycles h w)) = renderPromises w
    /\ unhandled (snd (update_cycles cycles h w)) = unhandled w
    /\ List.length (calls (snd (update_cycles cycles h w)))
       <= List.length (calls w) + List.length cycles.
Proof.
  induction cycles as [ | [E p] rest IH ]; intros h w.
  - simpl. repeat split; lia.
  - rewrite update_cycles_cons.
    destruct (useEffect_body_frame E (p_client p) (p_query p) (p_options p)
                h w) as (Hrp & Hun & Hcalls).
    destruct (IH (fst (useEffect_body E (p_client p) (p_query p)
                         (p_options p) h w))
                 (snd (useEffect_body E (p_client p) (p_query p)
                         (p_options p) h w))) as (IHrp & IHun & IHcalls).
    rewrite IHrp, IHun, Hrp, Hun. repeat split.
    simpl List.length.
    destruct Hcalls as [ Hsame | [c Hone] ].
    + rewrite Hsame in IHcalls. lia.
    + rewrite Hone, List.length_app in IHcalls. simpl in IHcalls. lia.
Qed.

Lemma update_cycles_same_request :
  forall cycles h w p0 inputs,
    ref h = ref_after (createWatchQueryOptions (p_query p0) (p_options p0))
              inputs ->
    p_client inputs = p_client p0 ->
    p_query inputs = p_query p0 ->
    Forall (same_request p0) (map snd cycles) ->
    obsQuery (fst (update_cycles cycles h w)) = obsQuery h
    /\ snd (update_cycles cycles h w) = w.
Proof.
  induction cycles as [ | [E p] rest IH ];
    intros h w p0 inputs Hr Hclient Hquery Hsame.
  - auto.
  - rewrite update_cycles_cons. simpl in Hsame.
    apply Forall_cons_iff in Hsame as [(Pc & Pq & Po) Hrest].
    apply equal_spec in Pq.
    rewrite useEffect_body_reuse.
    + simpl fst. simpl snd.
      destruct (IH {| ref := assign (ref h) (p_client p) (p_query p)
                               (p_options p);
                      obsQuery := obsQuery h |} w p0 p) as [Ho Hw]; auto.
      rewrite Hr. reflexivity.
    + rewrite Hr. simpl.
      rewrite Hclient, Pc, Nat.eqb_refl, Hquery, Pq, equal_refl. reflexivity.
    + rewrite Hr. exact Po.
Qed.

(** X10. While every update cycle asks for what the mount asked for (the
    same client, a deeply equal query and a deeply equal configuration),
    nothing is done: the handle of the mount stays in use and no call is
    made to the engine.  New callbacks, display name or [ssr] on every
    render are such cycles. *)
Theorem unchanged_request_is_a_no_op :
  forall (E0 : Engine) (p0 : Props) (cycles : list (Engine * Props))
         (w0 : World),
    Forall (same_request p0) (map snd cycles) ->
    obsQuery (fst (run E0 p0 cycles w0))
    = obsQuery (fst (mount E0 (p_client p0) (p_query p0) (p_options p0) w0))
    /\ snd (run E0 p0 cycles w0)
       = snd (mount E0 (p_client p0) (p_query p0) (p_options p0) w0).
Proof.
  intros E0 p0 cycles w0 Hsame. rewrite run_unfold.
  apply (update_cycles_same_request cycles _ _ p0 p0); auto.
  apply mount_ref.
Qed.

Lemma unchanged_request_is_a_no_op_witness :
  obsQuery (fst (run Scenario.failing (Scenario.props 7 1) Scenario.rerenders
                   Scenario.browser))
  = obsQuery (fst (mount Scenario.failing 7 Scenario.item_query
                     (Scenario.with_id 1) Scenario.browser))
  /\ snd (run Scenario.failing (Scenario.props 7 1) Scenario.rerenders
            Scenario.browser)
     = snd (mount Scenario.failing 7 Scenario.item_query (Scenario.with_id 1)
              Scenario.browser).
Proof.
  apply (unchanged_request_is_a_no_op
           Scenario.failing (Scenario.props 7 1) Scenario.rerenders
           Scenario.browser).
  repeat constructor.
Defined.

(** X11. Running the effect again with the inputs it has just run with
    never replaces the handle: a replacement, which makes the effect run
    again, is not repeated, and no further handle is created. *)
Theorem rerun_does_not_replace_again :
  forall (E1 E2 : Engine) (client : ApolloClient) (query : DocumentNode)
         (options : option QueryHookOptions) (h : Hook) (w : World),
    let once := useEffect_body E1 client query options h w in
    let twice := useEffect_body E2 client query options (fst once) (snd once) in
    obsQuery (fst twice) = obsQuery (fst once)
    /\ created_handles (snd twice) = created_handles (snd once)
    /\ ref (fst twice) = ref (fst once).
Proof.
  intros E1 E2 client query options h w once twice.
  assert (Hr : ref (fst once) = assign (ref h) client query options)
    by apply useEffect_body_ref.
  assert (Hc : negb (Nat.eqb (ref_client (ref (fst once))) client)
               || negb (equal (ref_query (ref (fst once))) query) = false).
  { rewrite Hr. simpl. rewrite Nat.eqb_refl, equal_refl. reflexivity. }
  subst twice.
  destruct (equal_options (ref_watchQueryOptions (ref (fst once)))
              (createWatchQueryOptions query options)) eqn:Hd.
  - rewrite useEffect_body_reuse by assumption. simpl.
    rewrite Hr. auto.
  - rewrite useEffect_body_reconfigure by assumption. simpl.
    rewrite Hr. auto.
Qed.

Lemma update_cycles_app :
  forall before after h w,
    update_cycles (before ++ after) h w
    = update_cycles after (fst (update_cycles before h w))
        (snd (update_cycles before h w)).
Proof.
  induction before as [ | [E p] rest IH ]; intros after h w.
  - reflexivity.
  - rewrite <- app_comm_cons, !update_cycles_cons. apply IH.
Qed.

Lemma configured_with_last :
  forall log c o,
    configured_with (log ++ [c]) o
    = match configured_with [c] o with
      | Some options => Some options
      | None => configured_with log o
      end.
Proof.
  induction log as [ | c' rest IH ]; intros c o.
  - simpl. destruct c; destruct (ObservableQuery_eqb _ o); reflexivity.
  - rewrite <- app_comm_cons.
    change (configured_with (c' :: rest ++ [c]) o)
      with (match configured_with (rest ++ [c]) o with
            | Some later => Some later
            | None =>
                match c' with
                | WatchQuery _ options created =>
                    if ObservableQuery_eqb created o then Some options
                    else None
                | SetOptions target options =>
                    if ObservableQuery_eqb target o then Some options
                    else None
                end
            end).
    rewrite IH. destruct (configured_with [c] o); reflexivity.
Qed.

Lemma ObservableQuery_eqb_refl :
  forall o, ObservableQuery_eqb o o = true.
Proof. intros o. apply Nat.eqb_refl. Qed.

(** X12. Whenever the latest cycle's configuration differs from the
    configuration of the mount, the handle in use was created or last
    reconfigured with exactly that latest configuration. *)
Theorem handle_follows_configuration_differing_from_mount :
  forall (E0 : Engine) (p0 : Props) (cycles : list (Engine * Props))
         (w0 : World),
    equal_options
      (createWatchQueryOptions (p_query p0) (p_options p0))
      (createWatchQueryOptions (p_query (previous p0 cycles))
         (p_options (previous p0 cycles))) = false ->
    configured_with (calls (snd (run E0 p0 cycles w0)))
      (obsQuery (fst (run E0 p0 cycles w0)))
    = Some (createWatchQueryOptions (p_query (previous p0 cycles))
              (p_options (previous p0 cycles))).
Proof.
  intros E0 p0 cycles w0.
  induction cycles as [ | [E p] before _ ] using rev_ind.
  - unfold previous. simpl. rewrite equal_options_refl. discriminate.
  - unfold previous. rewrite map_app. cbn [map snd]. rewrite last_last.
    intros Hd.
    rewrite run_unfold, update_cycles_app, <- run_unfold, update_cycles_cons.
    simpl update_cycles. unfold ret. simpl fst. simpl snd.
    assert (Hr : ref (fst (run E0 p0 before w0))
                 = ref_after
                     (createWatchQueryOptions (p_query p0) (p_options p0))
                     (previous p0 before)) by apply run_ref.
    destruct (negb (Nat.eqb (ref_client (ref (fst (run E0 p0 before w0))))
                      (p_client p))
              || negb (equal (ref_query (ref (fst (run E0 p0 before w0))))
                         (p_query p))) eqn:Hc.
    + rewrite useEffect_body_replace by assumption. simpl.
      rewrite configured_with_last. simpl.
      rewrite ObservableQuery_eqb_refl. reflexivity.
    + rewrite useEffect_body_reconfigure;
        [ | assumption | rewrite Hr; exact Hd ].
      simpl. rewrite configured_with_last. simpl.
      rewrite ObservableQuery_eqb_refl. reflexivity.
Qed.

Lemma handle_follows_configuration_differing_from_mount_witness :
  configured_with
    (calls (snd (run Scenario.failing (Scenario.props 7 1)
                   Scenario.one_update Scenario.browser)))
    (obsQuery (fst (run Scenario.failing (Scenario.props 7 1)
                      Scenario.one_update Scenario.browser)))
  = Some (createWatchQueryOptions Scenario.item_query (Scenario.with_id 2)).
Proof.
  apply (handle_follows_configuration_differing_from_mount
           Scenario.failing (Scenario.props 7 1) Scenario.one_update
           Scenario.browser).
  reflexivity.
Defined.

(* ================================================================== *)
(** ** Further properties of the memoiser                               *)
(* ================================================================== *)

Lemma getSnapshot_agrees :
  forall E o m,
    loading (fst (getSnapshot E o m)) = loading (getCurrentResult E o)
    /\ networkStatus (fst (getSnapshot E o m))
       = networkStatus (getCurrentResult E o)
    /\ data (fst (getSnapshot E o m)) = data (getCurrentResult E o).
Proof.
  intros E o [ p | ]; [ | simpl; auto ].
  rewrite getSnapshot_cases.
  destruct (unchanged p (getCurrentResult E o)) eqn:U; [ | auto ].
  apply unchanged_true in U. exact U.
Qed.

(** X13. Whatever was memoised, the object returned by a read agrees with
    the engine's current result on the loading flag, the network status
    and the data: on these three a read is never stale. *)
Theorem snapshot_is_current_on_compared_fields :
  forall (E : Engine) (o : ObservableQuery)
         (previousResult : option ApolloQueryResult),
    loading (fst (getSnapshot E o previousResult))
    = loading (getCurrentResult E o)
    /\ networkStatus (fst (getSnapshot E o previousResult))
       = networkStatus (getCurrentResult E o)
    /\ data (fst (getSnapshot E o previousResult))
       = data (getCurrentResult E o).
Proof.
  intros E o previousResult. apply getSnapshot_agrees.
Qed.

Lemma reads_cons :
  forall E rest o m,
    reads (E :: rest) o m
    = fst (getSnapshot E o m) :: reads rest o (snd (getSnapshot E o m)).
Proof. reflexivity. Qed.

Lemma reads_keep_memo :
  forall engines o kept,
    Forall (fun E => unchanged kept (getCurrentResult E o) = true) engines ->
    Forall (fun r => r = kept) (reads engines o (Some kept)).
Proof.
  induction engines as [ | E rest IH ]; intros o kept Hall.
  - constructor.
  - apply Forall_cons_iff in Hall as [HE Hrest].
    rewrite reads_cons, (getSnapshot_keeps_memo E o kept HE). simpl fst.
    simpl snd.
    constructor; [ reflexivity | apply IH, Hrest ].
Qed.

(** X14. Over any number of consecutive reads of one closure, as long as
    the engine's results agree with that of the first read on loading,
    network status and data, every read returns the object the first read
    returned, whatever else (the error included) differs. *)
Theorem reads_are_stable :
  forall (E : Engine) (engines : list Engine) (o : ObservableQuery)
         (previousResult : option ApolloQueryResult),
    Forall (fun E' => unchanged (getCurrentResult E o)
                        (getCurrentResult E' o) = true) engines ->
    Forall (fun r => r = fst (getSnapshot E o previousResult))
           (reads (E :: engines) o previousResult).
Proof.
  intros E engines o m Hall. rewrite reads_cons.
  constructor; [ reflexivity | ].
  rewrite getSnapshot_returns_memo. apply reads_keep_memo.
  eapply Forall_impl; [ | exact Hall ].
  intros E' HE'. simpl in HE'.
  destruct m as [ p | ]; [ rewrite getSnapshot_cases | exact HE' ].
  destruct (unchanged p (getCurrentResult E o)) eqn:U; [ | exact HE' ].
  exact (unchanged_trans _ _ _ U HE').
Qed.

Lemma reads_are_stable_witness :
  Forall (fun r => r = fst (getSnapshot (Scenario.answering (Scenario.item 3))
                              {| obs_id := 0 |} None))
         (reads (Scenario.answering (Scenario.item 3)
                 :: Scenario.steady_engines) {| obs_id := 0 |} None).
Proof.
  apply reads_are_stable. repeat constructor.
Defined.

(* ================================================================== *)
(** ** The store listener                                               *)
(* ================================================================== *)

Lemma listen_deaf :
  forall events l,
    listening l = false ->
    store_changes (fold_left listen events l) = store_changes l
    /\ listening (fold_left listen events l) = false.
Proof.
  induction events as [ | e rest IH ]; intros l Hl; simpl.
  - auto.
  - destruct e as [ n | ]; simpl.
    + rewrite Hl. apply IH, Hl.
    + destruct (IH (disposer l) eq_refl) as [Hc Hd]. auto.
Qed.

Lemma subscribe_app :
  forall before after,
    subscribe (before ++ after) = fold_left listen after (subscribe before).
Proof. intros before after. unfold subscribe. apply fold_left_app. Qed.

(** X15. Once the disposer returned by [subscribe] has run, nothing the
    engine emits reaches [handleStoreChange], and running the disposer
    again changes nothing else. *)
Theorem disposed_listener_is_not_notified :
  forall (before after : list StoreEvent),
    store_changes (subscribe (before ++ Disposes :: after))
    = store_changes (subscribe before)
    /\ listening (subscribe (before ++ Disposes :: after)) = false.
Proof.
  intros before after. rewrite subscribe_app. simpl.
  destruct (listen_deaf after (disposer (subscribe before)) eq_refl)
    as [Hc Hl].
  rewrite Hc, Hl. auto.
Qed.

Lemma subscribe_results :
  forall results,
    Forall (fun e => exists r, e = Emits (Next r)) results ->
    subscribe results
    = {| listening := true; store_changes := List.length results;
         disposer_calls := 0 |}.
Proof.
  intros results. unfold subscribe.
  assert (G : forall l,
             listening l = true ->
             Forall (fun e => exists r, e = Emits (Next r)) results ->
             fold_left listen results l
             = {| listening := true;
                  store_changes := store_changes l + List.length results;
                  disposer_calls := disposer_calls l |}).
  { induction results as [ | e rest IH ]; intros l Hl Hall; simpl.
    - rewrite Nat.add_0_r. destruct l. simpl in *. subst. reflexivity.
    - apply Forall_cons_iff in Hall as [[r ->] Hrest]. simpl.
      rewrite Hl. simpl. rewrite IH; [ | reflexivity | exact Hrest ].
      simpl. f_equal. lia. }
  intros Hall. rewrite G; auto.
Qed.

(** X16. Every result pushed while the listener is subscribed calls
    [handleStoreChange] once, and so does an error; the error ends the
    stream, so nothing after it is notified. *)
Theorem results_and_error_notify_once_each :
  forall (results : list StoreEvent) (e : ApolloError)
         (later : list StoreEvent),
    Forall (fun ev => exists r, ev = Emits (Next r)) results ->
    store_changes (subscribe (results ++ Emits (Error e) :: later))
    = S (List.length results).
Proof.
  intros results e later Hall.
  rewrite subscribe_app, (subscribe_results results Hall). simpl.
  apply listen_deaf. reflexivity.
Qed.

Lemma results_and_error_notify_once_each_witness :
  store_changes (subscribe Scenario.results_then_error) = 3.
Proof.
  apply (results_and_error_notify_once_each
           [Emits (Next (Scenario.item 1)); Emits (Next (Scenario.item 2))]
           {| message := "500" |}
           [Emits (Next (Scenario.item 3)); Disposes;
            Emits (Error {| message := "again" |})]).
  repeat constructor; eexists; reflexivity.
Defined.

(* ================================================================== *)
(** ** Further properties of the hydration waiter                       *)
(* ================================================================== *)

(** X17. Whatever the handle emits, and in whatever order, the waiter is
    either still pending, untouched, or closed with exactly one call of
    [resolve] and at most one call of [unsubscribe]: it never resolves
    twice and never stays subscribed once resolved. *)
Theorem waiter_pending_or_resolved_once :
  forall emitted : list Notification,
    fetchData emitted = subscribed
    \/ (closed (fetchData emitted) = true
        /\ exists r,
             resolved (fetchData emitted) = [r]
             /\ unsubscribe_calls (fetchData emitted)
                = match r with by_complete => 0 | by_next | by_error => 1 end).
Proof.
  induction emitted as [ | n rest IH ] using rev_ind.
  - left. reflexivity.
  - rewrite fetchData_app. simpl.
    destruct IH as [ -> | (Hclosed & r & Hr & Hu) ].
    + destruct n as [ res | e | ]; unfold deliver; simpl.
      * destruct (loading res); simpl; [ left; reflexivity | ].
        right. split; [ reflexivity | ]. exists by_next. auto.
      * right. split; [ reflexivity | ]. exists by_error. auto.
      * right. split; [ reflexivity | ]. exists by_complete. auto.
    + right. unfold deliver. rewrite Hclosed. eauto.
Qed.

(** X18. While the handle has emitted loading results only (or nothing),
    the waiter is pending: [resolve] has not been called, the subscription
    is open and [unsubscribe] has not been called. *)
Theorem loading_results_leave_waiter_pending :
  forall emitted : list Notification,
    Forall (fun n => exists r, n = Next r /\ loading r = true) emitted ->
    resolved (fetchData emitted) = []
    /\ closed (fetchData emitted) = false
    /\ unsubscribe_calls (fetchData emitted) = 0.
Proof.
  intros emitted Hall. rewrite fetchData_pending; [ auto | ].
  eapply Forall_impl; [ | exact Hall ].
  intros n (r & -> & Hr). simpl. rewrite Hr. reflexivity.
Qed.

Lemma loading_results_leave_waiter_pending_witness :
  resolved (fetchData [Next (Scenario.result 10 None true 1 None);
                       Next (Scenario.result 11 None true 1 None)]) = []
  /\ closed (fetchData [Next (Scenario.result 10 None true 1 None);
                        Next (Scenario.result 11 None true 1 None)]) = false
  /\ unsubscribe_calls
       (fetchData [Next (Scenario.result 10 None true 1 None);
                   Next (Scenario.result 11 None true 1 None)]) = 0.
Proof.
  apply loading_results_leave_waiter_pending.
  repeat constructor; eexists; split; reflexivity.
Defined.

(* ================================================================== *)
(** ** Renders                                                          *)
(* ================================================================== *)

Lemma bind_unfold :
  forall (A B : Type) (m : M A) (k : A -> M B) (w : World),
    bind m k w = k (fst (m w)) (snd (m w)).
Proof. intros A B m k w. unfold bind. destruct (m w). reflexivity. Qed.

(** X19. The first render returns the engine's current result for the
    handle of the mount, with [called] true and the methods bound to that
    handle, and the run of the effect that follows it changes nothing: the
    hook and the world are those left by the mount. *)
Theorem first_render_is_the_mount :
  forall (E : Engine) (variables_of : ObservableQuery -> option Json)
         (p : Props) (w : World),
    let m := mount E (p_client p) (p_query p) (p_options p) w in
    first_render E variables_of p w
    = (useQuery_result variables_of (p_client p) (obsQuery (fst m))
         (getCurrentResult E (obsQuery (fst m))),
       {| hook := fst m;
          deps_obsQuery := obsQuery (fst m);
          deps_client := p_client p;
          memo_previousResult := Some (getCurrentResult E (obsQuery (fst m))) |},
       snd m).
Proof.
  intros E variables_of p w m. unfold first_render.
  rewrite bind_unfold. fold m. rewrite bind_unfold. subst m.
  rewrite mount_effect_does_nothing. reflexivity.
Qed.

(** X20. In every render, the data, the loading flag and the network
    status returned are those of the engine's current result for the handle
    in use, [called] is true, [client] is the client of this render and the
    six methods are bound to the handle in use. *)
Theorem render_returns_current_fields :
  forall (E : Engine) (variables_of : ObservableQuery -> option Json)
         (p : Props) (same_objects : bool) (i : Instance) (w : World),
    let returned := fst (fst (render E variables_of p same_objects i w)) in
    let current := getCurrentResult E (obsQuery (hook i)) in
    r_data returned = data current
    /\ r_loading returned = loading current
    /\ r_networkStatus returned = networkStatus current
    /\ called returned = true
    /\ r_client returned = p_client p
    /\ (refetch returned, fetchMore returned, updateQuery returned,
        startPolling returned, stopPolling returned, subscribeToMore returned)
       = (obsQuery (hook i), obsQuery (hook i), obsQuery (hook i),
          obsQuery (hook i), obsQuery (hook i), obsQuery (hook i)).
Proof.
  intros E variables_of p same_objects i w. cbv zeta.
  unfold render. rewrite bind_unfold. unfold ret. cbn [fst snd].
  unfold useQuery_result.
  cbn [r_data r_loading r_networkStatus called r_client refetch fetchMore
       updateQuery startPolling stopPolling subscribeToMore].
  destruct (getSnapshot_agrees E (obsQuery (hook i))
              (if ObservableQuery_eqb (deps_obsQuery i) (obsQuery (hook i))
               then memo_previousResult i else None)) as (Hl & Hn & Hd).
  rewrite Hl, Hn, Hd. repeat split.
Qed.

(** X21. A render whose client or query changed still returns the methods
    of the old handle; its effect creates the new handle, which differs
    from the old one.  The next render reads that handle through a new
    [getSnapshot] closure: it returns the engine's current result for the
    new handle in full, error included, binds the methods to the new
    handle, and its effect does not replace the handle again. *)
Theorem replaced_handle_is_read_afresh :
  forall (E1 E2 : Engine) (variables_of : ObservableQuery -> option Json)
         (p1 p2 : Props) (same_objects : bool) (i : Instance) (w : World),
    obs_id (obsQuery (hook i)) < created_handles w ->
    ref_client (ref (hook i)) <> p_client p1
    \/ equal (ref_query (ref (hook i))) (p_query p1) = false ->
    p_client p2 = p_client p1 ->
    equal (p_query p1) (p_query p2) = true ->
    let r1 := render E1 variables_of p1 false i w in
    let r2 := render E2 variables_of p2 same_objects (snd (fst r1)) (snd r1) in
    let new := {| obs_id := created_handles w |} in
    refetch (fst (fst r1)) = obsQuery (hook i)
    /\ obsQuery (hook (snd (fst r1))) = new
    /\ new <> obsQuery (hook i)
    /\ fst (fst r2)
       = useQuery_result variables_of (p_client p2) new
           (getCurrentResult E2 new)
    /\ obsQuery (hook (snd (fst r2))) = new
    /\ created_handles (snd r2) = created_handles (snd r1).
Proof.
  intros E1 E2 variables_of p1 p2 same_objects i w Hcreated Hchange Hclient
    Hquery r1 r2 new.
  assert (Hc : negb (Nat.eqb (ref_client (ref (hook i))) (p_client p1))
               || negb (equal (ref_query (ref (hook i))) (p_query p1)) = true).
  { destruct Hchange as [ Hn | Hq ].
    - apply Nat.eqb_neq in Hn. rewrite Hn. reflexivity.
    - rewrite Hq. apply orb_true_r. }
  assert (Hnew : ObservableQuery_eqb (obsQuery (hook i)) new = false).
  { unfold ObservableQuery_eqb. simpl. apply Nat.eqb_neq. lia. }
  assert (H1 : r1
               = (useQuery_result variables_of (p_client p1) (obsQuery (hook i))
                    (fst (getSnapshot E1 (obsQuery (hook i))
                            (if ObservableQuery_eqb (deps_obsQuery i)
                                  (obsQuery (hook i))
                             then memo_previousResult i else None))),
                  {| hook := {| ref := assign (ref (hook i)) (p_client p1)
                                         (p_query p1) (p_options p1);
                                obsQuery := new |};
                     deps_obsQuery := obsQuery (hook i);
                     deps_client := p_client p1;
                     memo_previousResult :=
                       snd (getSnapshot E1 (obsQuery (hook i))
                              (if ObservableQuery_eqb (deps_obsQuery i)
                                    (obsQuery (hook i))
                               then memo_previousResult i else None)) |},
                  {| created_handles := S (created_handles w);
                     calls := calls w ++
                              [WatchQuery (p_client p1)
                                 (createWatchQueryOptions (p_query p1)
                                    (p_options p1)) new];
                     renderPromises := renderPromises w;
                     unhandled := unhandled w |})).
  { subst r1. unfold render. rewrite bind_unfold.
    rewrite orb_true_r.
    rewrite (useEffect_body_replace E1 _ _ _ (hook i) w Hc). reflexivity. }
  subst r2. rewrite H1. cbn [fst snd].
  unfold render. rewrite bind_unfold.
  cbn [hook obsQuery deps_obsQuery deps_client memo_previousResult].
  rewrite Hnew. cbn [negb orb].
  apply equal_spec in Hquery.
  destruct (equal_options
              (ref_watchQueryOptions (ref (hook i)))
              (createWatchQueryOptions (p_query p2) (p_options p2))) eqn:Hd.
  - rewrite useEffect_body_reuse;
      [ | cbn; rewrite Hclient, Nat.eqb_refl, Hquery, equal_refl; reflexivity
        | exact Hd ].
    unfold ret. cbn.
    repeat split. intros Heq. rewrite <- Heq in Hcreated. simpl in Hcreated. lia.
  - rewrite useEffect_body_reconfigure;
      [ | cbn; rewrite Hclient, Nat.eqb_refl, Hquery, equal_refl; reflexivity
        | exact Hd ].
    unfold ret. cbn.
    repeat split. intros Heq. rewrite <- Heq in Hcreated. simpl in Hcreated. lia.
Qed.

Lemma replaced_handle_is_read_afresh_witness :
  fst (fst (render (Scenario.answering Scenario.first_failure)
              Scenario.no_variables Scenario.other_props true
              (snd (fst (render Scenario.failing Scenario.no_variables
                           Scenario.other_props false
                           (fst Scenario.rendered_once)
                           (snd Scenario.rendered_once))))
              (snd (render Scenario.failing Scenario.no_variables
                      Scenario.other_props false
                      (fst Scenario.rendered_once)
                      (snd Scenario.rendered_once)))))
  = useQuery_result Scenario.no_variables 7 {| obs_id := 1 |}
      Scenario.first_failure.
Proof.
  apply (replaced_handle_is_read_afresh
           Scenario.failing (Scenario.answering Scenario.first_failure)
           Scenario.no_variables Scenario.other_props Scenario.other_props
           true (fst Scenario.rendered_once) (snd Scenario.rendered_once)).
  - vm_compute. lia.
  - right. reflexivity.
  - reflexivity.
  - reflexivity.
Defined.
